(** * MarkBind: the PlantUML plugin (src/plugins/default/markbind-plugin-plantuml.js)

    A shallow embedding of the plugin in Rocq.  The plugin walks the <puml>
    elements of a parsed page, turns each of them into a <pic> element and
    launches the PlantUML jar once per output file.  The JavaScript objects of
    the parsed document are mutated in place, so the document is a store of
    objects addressed by references; the module-level [processedDiagrams] set,
    the file system, the launched child processes and the logger form the rest
    of the state, which every function threads explicitly.

    The file has the embedding of the plugin, a small instance of its
    collaborators, and a model of the list core the specification describes;
    the properties of the three follow. *)

From stdpp Require Import base option list gmap strings pretty.
From Stdlib Require Import Ascii.

Local Open Scope string_scope.

(** ** Results: a value, or a thrown JavaScript exception *)

Inductive Res (A : Type) : Type :=
| Ok (a : A)
| Throw (err : string).
Arguments Ok {A} a.
Arguments Throw {A} err.

(** ** Collaborators that are not part of the plugin

    Node's [fs], [path] and [child_process] modules, cheerio, crypto-js and the
    repository's own [fsUtil] and [constants] modules are used by the plugin but
    are not defined in it: they are taken as an interface. *)

(** References to the objects of a parsed document. *)
Definition ref := nat.

(** A node of the htmlparser2 document cheerio works on.  [children] is
    [None] when the property is undefined. *)
Record Element := mkElement {
  type : string;
  name : string;
  attribs : gmap string string;
  children : option (list ref);
  data : string
}.

Class Externals := {
  (* fs *)
  FS : Type;
  readFileSync : FS → string → Res string;
  existsSync : FS → string → bool;
  mkdirSync : FS → string → Res FS;
  (* path *)
  path_resolve : string → string → string;
  path_dirname : string → string;
  path_basename : string → string;
  path_join : string → string → string;
  (* crypto-js: MD5(content).toString() *)
  MD5 : string → string;
  (* ../../util/fsUtil *)
  removeExtension : string → string;
  (* ../../constants *)
  ERR_PROCESSING : string;
  ERR_READING : string;
  (* path.resolve(__dirname, 'plantuml.jar') *)
  JAR_PATH : string;
  (* child_process: exec(cmd) throws, or returns a child process.  A child
     that could not be spawned has no stdin ([None]); a spawned one comes
     with the file system as its shell leaves it (the shell creates the file
     its output is redirected to). *)
  child_process_exec : FS → string → Res (option FS);
  (* cheerio: load(content, { xmlMode: true }), $(selector), $.html() *)
  cheerio_load : string → gmap ref Element * list ref;
  cheerio_select : gmap ref Element → list ref → string → list ref;
  cheerio_html : gmap ref Element → list ref → string
}.

(** The parser context handed to the plugin. *)
Record Config := mkConfig {
  sourcePath : string;
  resultPath : string
}.

Inductive LogEntry : Type :=
| LogDebug (msg : string)
| LogError (msg : string).

(** A child process started by [exec]: its command line and what is written
    to its standard input. *)
Record Spawn := mkSpawn {
  cmd : string;
  stdin : string
}.

Section Plugin.
Context `{ext : Externals}.

(** ** The state of the process *)

Record World := mkWorld {
  nodes : gmap ref Element;          (* the objects of parsed documents *)
  processedDiagrams : gset string;   (* const processedDiagrams = new Set() *)
  fs : FS;
  spawned : list Spawn;
  logged : list LogEntry
}.

Definition with_nodes (h : gmap ref Element) (w : World) : World :=
  mkWorld h (processedDiagrams w) (fs w) (spawned w) (logged w).
Definition with_processed (s : gset string) (w : World) : World :=
  mkWorld (nodes w) s (fs w) (spawned w) (logged w).
Definition with_fs (f : FS) (w : World) : World :=
  mkWorld (nodes w) (processedDiagrams w) f (spawned w) (logged w).
Definition with_spawned (l : list Spawn) (w : World) : World :=
  mkWorld (nodes w) (processedDiagrams w) (fs w) l (logged w).
Definition with_logged (l : list LogEntry) (w : World) : World :=
  mkWorld (nodes w) (processedDiagrams w) (fs w) (spawned w) l.

(** ** State and exception monad *)

Definition M (A : Type) : Type := World → Res A * World.

#[export] Instance M_ret : MRet M := λ A a w, (Ok a, w).
#[export] Instance M_bind : MBind M := λ A B f m w,
  match m w with
  | (Ok a, w') => f a w'
  | (Throw e, w') => (Throw e, w')
  end.

Definition gets {A} (f : World → A) : M A := λ w, (Ok (f w), w).
Definition modify (f : World → World) : M unit := λ w, (Ok tt, f w).

(** Reading and writing the properties of the object behind a reference. *)
Definition deref (tag : ref) : M Element := λ w,
  match nodes w !! tag with
  | Some e => (Ok e, w)
  | None => (Throw "TypeError", w)
  end.

Definition update (tag : ref) (f : Element → Element) : M unit :=
  e ← deref tag;
  modify (λ w, with_nodes (<[tag := f e]> (nodes w)) w).

Definition set_name (n : string) (e : Element) : Element :=
  mkElement (type e) n (attribs e) (children e) (data e).
Definition set_attrib (k v : string) (e : Element) : Element :=
  mkElement (type e) (name e) (<[k := v]> (attribs e)) (children e) (data e).
Definition set_children (c : list ref) (e : Element) : Element :=
  mkElement (type e) (name e) (attribs e) (Some c) (data e).

(** logger.debug / logger.error *)
Definition logger (l : LogEntry) : M unit :=
  modify (λ w, with_logged (logged w ++ [l]) w).

(** ** fetchContentInTag (lines 22-33) *)

(** The objects a children array holds. *)
Definition child_objects (h : gmap ref Element) (tag : Element) : list Element :=
  match children tag with
  | Some cs => omap (λ c, h !! c) cs
  | None => []
  end.

Definition fetchContentInTag (h : gmap ref Element) (tag : Element) : string :=
  let content := "" in
  match children tag with
  | Some cs =>
      fold_left (λ content child,
                   if decide (type child = "text") then data child else content)
                (omap (λ c, h !! c) cs) content
  | None => content
  end.

(** ** getFileName (lines 35-47) *)

Definition getFileName (tagAttribs : gmap string string) (content : string) : string :=
  match tagAttribs !! "name" with
  | Some n => n ++ ".png"
  | None =>
      match tagAttribs !! "src" with
      | Some src =>
          let fileName := removeExtension src in
          fileName ++ ".png"
      | None =>
          let hashedContent := MD5 content in
          hashedContent ++ ".png"
      end
  end.

(** ** getContent (lines 50-67) *)

(** [cwf || sourcePath]: an undefined or empty [cwf] is falsy. *)
Definition or_else (cwf : option string) (sourcePath : string) : string :=
  match cwf with
  | Some s => if decide (s = "") then sourcePath else s
  | None => sourcePath
  end.

Definition rawDiagramPath (cwf : option string) (config : Config) (src : string) : string :=
  let _cwf := or_else cwf (sourcePath config) in
  path_resolve (path_dirname _cwf) src.

Definition getContent (element : ref) (cwf : option string) (config : Config) : M string :=
  e ← deref element;
  match attribs e !! "src" with
  | Some src =>
      let p := rawDiagramPath cwf config src in
      f ← gets fs;
      match readFileSync f p with
      | Ok s => mret s
      | Throw err =>
          logger (LogDebug err);;
          logger (LogError (ERR_READING ++ " " ++ p));;
          mret ""
      end
  | None =>
      h ← gets nodes;
      mret (fetchContentInTag h e)
  end.

(** ** generateDiagram (lines 79-125) *)

Definition outputDir (config : Config) (fileName : string) : string :=
  path_join (path_dirname (resultPath config)) (path_dirname fileName).

Definition outputFilePath (config : Config) (fileName : string) : string :=
  path_join (outputDir config fileName) (path_basename fileName).

Definition dquote : string := String (Ascii.ascii_of_nat 34) "".

(** The command line that launches the PlantUML jar. *)
Definition plantuml_cmd (outputFilePath : string) : string :=
  "java -jar " ++ dquote ++ JAR_PATH ++ dquote ++ " -pipe > "
    ++ dquote ++ outputFilePath ++ dquote.

(** [exec(cmd)] followed by [childProcess.stdin.write(content, ...)].  Nothing
    guards either: what exec throws leaves the plugin, and writing to the
    stdin of a child that could not be spawned is a TypeError.  The callbacks
    registered on the child process run after the plugin has returned and
    only write to the log. *)
Definition exec (c content : string) : M unit := λ w,
  match child_process_exec (fs w) c with
  | Ok (Some f) =>
      (Ok tt, with_fs f (with_spawned (spawned w ++ [mkSpawn c content]) w))
  | Ok None => (Throw "TypeError", w)
  | Throw err => (Throw err, w)
  end.

Definition mkdir (dir : string) : M unit := λ w,
  match mkdirSync (fs w) dir with
  | Ok f => (Ok tt, with_fs f w)
  | Throw err => (Throw err, w)
  end.

Definition generateDiagram (fileName content : string) (config : Config) : M string :=
  let outputDir := outputDir config fileName in
  let outputFilePath := outputFilePath config fileName in
  processed ← gets processedDiagrams;
  if decide (outputFilePath ∈ processed) then mret fileName
  else
    modify (λ w, with_processed ({[outputFilePath]} ∪ processedDiagrams w) w);;
    f ← gets fs;
    (if existsSync f outputDir then mret tt else mkdir outputDir);;
    exec (plantuml_cmd outputFilePath) content;;
    mret fileName.

(** ** preRender (lines 128-147) *)

(** The callback of [$('puml').each]. *)
Definition each_callback (config : Config) (tag : ref) : M unit :=
  update tag (set_name "pic");;
  e ← deref tag;
  let cwf := attribs e !! "cwf" in
  pumlContent ← getContent tag cwf config;
  e ← deref tag;
  let fileName := getFileName (attribs e) pumlContent in
  src ← generateDiagram fileName pumlContent config;
  update tag (set_attrib "src" src);;
  update tag (set_children []).

Fixpoint each {A} (f : A → M unit) (sel : list A) : M unit :=
  match sel with
  | [] => mret tt
  | tag :: rest => f tag;; each f rest
  end.

Definition preRender (content : string) (config : Config) : M string :=
  modify (with_processed ∅);;
  let '(h, roots) := cheerio_load content in
  modify (with_nodes h);;
  each (each_callback config) (cheerio_select h roots "puml");;
  h' ← gets nodes;
  mret (cheerio_html h' roots).

(** ** Vocabulary of the properties *)

(** The children of type 'text' of a tag. *)
Definition text_children (h : gmap ref Element) (tag : Element) : list Element :=
  filter (λ c, type c = "text") (child_objects h tag).

(** The child process generateDiagram starts for an output file path and a
    content. *)
Definition spawn_of (g : string * string) : Spawn :=
  mkSpawn (plantuml_cmd g.1) g.2.

(** The launch that ends a call of generateDiagram whose output file path
    was not processed yet: the child process is spawned and the file name
    returned, or the failure to spawn is thrown. *)
Definition launch (fileName content : string) (config : Config) (w : World)
  : Res string * World :=
  let c := plantuml_cmd (outputFilePath config fileName) in
  match child_process_exec (fs w) c with
  | Ok (Some f) =>
      (Ok fileName, with_fs f (with_spawned (spawned w ++ [mkSpawn c content]) w))
  | Ok None => (Throw "TypeError", w)
  | Throw err => (Throw err, w)
  end.

(** What a computation launched: [gen] lists, in order, the output file path
    and the standard input of every child process started between [w] and
    [w'].  No path is launched twice, none was in the set at [w], all are in
    the set at [w'], and the set only grows. *)
Record generated (w w' : World) (gen : list (string * string)) : Prop := {
  gen_spawned : spawned w' = (spawned w ++ map spawn_of gen)%list;
  gen_nodup : NoDup gen.*1;
  gen_fresh : ∀ p, p ∈ gen.*1 → p ∉ processedDiagrams w;
  gen_recorded : ∀ p, p ∈ gen.*1 → p ∈ processedDiagrams w';
  gen_mono : processedDiagrams w ⊆ processedDiagrams w'
}.

Definition tracks {A} (m : M A) : Prop :=
  ∀ w, ∃ gen, generated w (m w).2 gen.

(** The state left by a sequence of calls of generateDiagram, whatever each
    of them returned. *)
Definition after_calls (config : Config) (calls : list (string * string)) (w : World)
  : World :=
  fold_left (λ w c, (generateDiagram c.1 c.2 config w).2) calls w.

(** Two states that agree on everything the plugin reads: the document, the
    processed-diagrams set and the file system.  The launched processes and
    the log are only ever appended to. *)
Definition same_inputs (w1 w2 : World) : Prop :=
  nodes w1 = nodes w2
  ∧ processedDiagrams w1 = processedDiagrams w2
  ∧ fs w1 = fs w2.

Definition oblivious {A} (m : M A) : Prop :=
  ∀ w1 w2, same_inputs w1 w2 →
    (m w1).1 = (m w2).1 ∧ same_inputs (m w1).2 (m w2).2.

(** The element a <puml> element [e] becomes once its diagram has the file
    name [src]. *)
Definition as_pic (src : string) (e : Element) : Element :=
  mkElement (type e) "pic" (<["src" := src]> (attribs e)) (Some []) (data e).

(** Two stores whose objects have the same types and data: the text a tag
    holds reads the same in both. *)
Definition same_text (h0 h : gmap ref Element) : Prop :=
  ∀ r, (λ e, (type e, data e)) <$> h !! r = (λ e, (type e, data e)) <$> h0 !! r.

(** The file name of the diagram of a <puml> element of the parsed document. *)
Definition diagramFileName (h0 : gmap ref Element) (e0 : Element) : string :=
  getFileName (attribs e0) (fetchContentInTag h0 e0).

(** What getContent returns for the element [e] of the document [h] over the
    file system [f]: the file behind its src attribute (the empty string when
    it cannot be read), else its last text child. *)
Definition pumlContent (h : gmap ref Element) (f : FS) (config : Config)
    (e : Element) : string :=
  match attribs e !! "src" with
  | Some src =>
      match readFileSync f (rawDiagramPath (attribs e !! "cwf") config src) with
      | Ok s => s
      | Throw _ => ""
      end
  | None => fetchContentInTag h e
  end.

(** What getContent writes to the log for the element [e]. *)
Definition read_log (f : FS) (config : Config) (e : Element) : list LogEntry :=
  match attribs e !! "src" with
  | Some src =>
      let p := rawDiagramPath (attribs e !! "cwf") config src in
      match readFileSync f p with
      | Ok _ => []
      | Throw err => [LogDebug err; LogError (ERR_READING ++ " " ++ p)]
      end
  | None => []
  end.

(** The tags that launch a process in a pass that starts with the output
    file paths in [seen] processed, with their output file paths: in document
    order, the first tag of each path. *)
Fixpoint first_tags (h0 : gmap ref Element) (config : Config) (sel : list ref)
    (seen : gset string) : list (ref * string) :=
  match sel with
  | [] => []
  | tag :: rest =>
      match h0 !! tag with
      | Some e =>
          let p := outputFilePath config (diagramFileName h0 e) in
          if decide (p ∈ seen) then first_tags h0 config rest seen
          else (tag, p) :: first_tags h0 config rest ({[p]} ∪ seen)
      | None => first_tags h0 config rest seen
      end
  end.

(** The process [g] (output file path, standard input) is the one of the tag
    [tp]: it has the tag's path, and the text inside the tag as input when
    the tag has no src attribute. *)
Definition launched_for (h0 : gmap ref Element) (tp : ref * string)
    (g : string * string) : Prop :=
  g.1 = tp.2
  ∧ ∃ e, h0 !! tp.1 = Some e
         ∧ (attribs e !! "src" = None → g.2 = fetchContentInTag h0 e).

(** Why a pass threw [err] at the element [e], in the state [w'] it left: the
    output directory was missing and mkdirSync threw, or exec threw, or the
    child could not be spawned and writing to its stdin was a TypeError.  The
    output file path is in the set by then. *)
Definition thrown_for (h0 : gmap ref Element) (config : Config) (e : Element)
    (err : string) (w' : World) : Prop :=
  let fileName := diagramFileName h0 e in
  let p := outputFilePath config fileName in
  p ∈ processedDiagrams w'
  ∧ (existsSync (fs w') (outputDir config fileName) = false
     ∧ mkdirSync (fs w') (outputDir config fileName) = Throw err
     ∨ child_process_exec (fs w') (plantuml_cmd p) = Throw err
     ∨ child_process_exec (fs w') (plantuml_cmd p) = Ok None ∧ err = "TypeError").

(** The output file paths of the diagrams of the selected tags. *)
Definition tag_paths (h0 : gmap ref Element) (config : Config) (sel : list ref)
  : list string :=
  omap (λ tag, (λ e, outputFilePath config (diagramFileName h0 e)) <$> h0 !! tag) sel.

End Plugin.

(** * A small instance of the collaborators

    A file system of regular files and directories, POSIX-like path
    functions, a stand-in digest and a one-page parser: enough to run the
    plugin on concrete pages. *)

Module Demo.

Record DemoFS := mkDemoFS {
  files : gmap string string;
  dirs : gset string
}.

Definition demo_readFileSync (f : DemoFS) (p : string) : Res string :=
  match files f !! p with
  | Some s => Ok s
  | None => Throw "ENOENT"
  end.

Definition demo_existsSync (f : DemoFS) (p : string) : bool :=
  bool_decide (p ∈ dirs f) || bool_decide (is_Some (files f !! p)).

Definition demo_mkdirSync (f : DemoFS) (p : string) : Res DemoFS :=
  if bool_decide (is_Some (files f !! p)) then Throw "EEXIST"
  else Ok (mkDemoFS (files f) ({[p]} ∪ dirs f)).

(** [split_at_last c s]: what stands before and after the last [c] of [s]. *)
Fixpoint split_at_last (c : Ascii.ascii) (s : string) : option (string * string) :=
  match s with
  | EmptyString => None
  | String a s' =>
      match split_at_last c s' with
      | Some (l, r) => Some (String a l, r)
      | None => if decide (a = c) then Some (EmptyString, s') else None
      end
  end.

Definition slash : Ascii.ascii := Ascii.ascii_of_nat 47.
Definition dot : Ascii.ascii := Ascii.ascii_of_nat 46.

Definition demo_dirname (p : string) : string :=
  match split_at_last slash p with
  | Some (l, _) => if decide (l = "") then "/" else l
  | None => "."
  end.

Definition demo_basename (p : string) : string :=
  match split_at_last slash p with
  | Some (_, r) => r
  | None => p
  end.

Definition demo_join (a b : string) : string :=
  if decide (b = ".") then a
  else if decide (a = ".") then b
  else a ++ "/" ++ b.

Definition demo_removeExtension (p : string) : string :=
  match split_at_last dot p with
  | Some (l, _) => l
  | None => p
  end.

(** A stand-in for the MD5 digest: the content read backwards. *)
Definition demo_digest (content : string) : string := String.rev content.

(** The page
    <div><puml>A->B</puml><puml>A->B</puml><puml name=seq>X</puml><puml src=d/c.puml/></div>
    as the parser lays it out. *)
Definition demo_page : string := "demo".

Definition tag_node (n : string) (a : gmap string string) (cs : list ref) : Element :=
  mkElement "tag" n a (Some cs) "".
Definition text_node (d : string) : Element :=
  mkElement "text" "" ∅ None d.

Definition demo_heap : gmap ref Element :=
  list_to_map
    [ (0, tag_node "div" ∅ [1; 3; 5; 7]);
      (1, tag_node "puml" ∅ [2]); (2, text_node "A->B");
      (3, tag_node "puml" ∅ [4]); (4, text_node "A->B");
      (5, tag_node "puml" {[ "name" := "seq" ]} [6]); (6, text_node "X");
      (7, tag_node "puml" {[ "src" := "d/c.puml" ]} []) ].

Definition demo_load (content : string) : gmap ref Element * list ref :=
  if decide (content = demo_page) then (demo_heap, [0]) else (∅, []).

(** Elements in document order, down to a depth of [fuel]. *)
Fixpoint walk (fuel : nat) (h : gmap ref Element) (rs : list ref) : list ref :=
  match fuel with
  | 0 => []
  | S n =>
      flat_map (λ r, match h !! r with
                     | Some e => r :: walk n h (default [] (children e))
                     | None => []
                     end) rs
  end.

Definition demo_select (h : gmap ref Element) (roots : list ref) (sel : string)
  : list ref :=
  filter (λ r, (λ e, (type e, name e)) <$> h !! r = Some ("tag", sel))
         (walk (S (size h)) h roots).

Fixpoint demo_html_fuel (fuel : nat) (h : gmap ref Element) (rs : list ref) : string :=
  match fuel with
  | 0 => ""
  | S n =>
      fold_right (λ r acc,
        match h !! r with
        | Some e =>
            (if decide (type e = "text") then data e
             else "<" ++ name e
                  ++ fold_right (λ kv acc, " " ++ kv.1 ++ "=" ++ kv.2 ++ acc) ""
                       (map_to_list (attribs e))
                  ++ ">" ++ demo_html_fuel n h (default [] (children e))
                  ++ "</" ++ name e ++ ">") ++ acc
        | None => acc
        end) "" rs
  end.

Definition demo_html (h : gmap ref Element) (roots : list ref) : string :=
  demo_html_fuel (S (size h)) h roots.

(** The file a command line redirects its output to: what stands between
    the last two double quotes. *)
Definition redirect_target (c : string) : option string :=
  match split_at_last (Ascii.ascii_of_nat 34) c with
  | Some (l, _) => snd <$> split_at_last (Ascii.ascii_of_nat 34) l
  | None => None
  end.

(** Every child is spawned; its shell creates the output file, empty. *)
Definition demo_exec (f : DemoFS) (c : string) : Res (option DemoFS) :=
  match redirect_target c with
  | Some p => Ok (Some (mkDemoFS (<[p := ""]> (files f)) (dirs f)))
  | None => Ok (Some f)
  end.

#[export] Instance demo : Externals := {|
  FS := DemoFS;
  readFileSync := demo_readFileSync;
  existsSync := demo_existsSync;
  mkdirSync := demo_mkdirSync;
  path_resolve := demo_join;
  path_dirname := demo_dirname;
  path_basename := demo_basename;
  path_join := demo_join;
  MD5 := demo_digest;
  removeExtension := demo_removeExtension;
  ERR_PROCESSING := "Error processing";
  ERR_READING := "Error reading";
  JAR_PATH := "/opt/markbind/plantuml.jar";
  child_process_exec := demo_exec;
  cheerio_load := demo_load;
  cheerio_select := demo_select;
  cheerio_html := demo_html
|}.

Definition demo_config : Config := mkConfig "/site/index.md" "/out/index.html".

Definition demo_fs : DemoFS := mkDemoFS ∅ {[ "/out" ]}.

Definition demo_world : World := mkWorld ∅ {[ "/out/stale.png" ]} demo_fs [] [].

(** The document once the parser has laid it out, before any callback. *)
Definition demo_loaded : World := mkWorld demo_heap ∅ demo_fs [] [].

(** A state some earlier pass left behind. *)
Definition demo_later : World :=
  mkWorld demo_heap {[ "/out/seq.png" ]} demo_fs
          [mkSpawn "earlier" "run"] [LogError "earlier"].

(** A file system where the output directories and a diagram source exist. *)
Definition demo_ready_fs : DemoFS :=
  mkDemoFS {[ "/site/d/c.puml" := "C->D" ]} {[ "/out"; "/out/d" ]}.

Definition demo_ready_loaded : World := mkWorld demo_heap ∅ demo_ready_fs [] [].

(** The same collaborators over a file system that refuses to create
    directories. *)
Definition readonly : Externals := {|
  FS := DemoFS;
  readFileSync := demo_readFileSync;
  existsSync := demo_existsSync;
  mkdirSync := λ _ _, Throw "EACCES";
  path_resolve := demo_join;
  path_dirname := demo_dirname;
  path_basename := demo_basename;
  path_join := demo_join;
  MD5 := demo_digest;
  removeExtension := demo_removeExtension;
  ERR_PROCESSING := "Error processing";
  ERR_READING := "Error reading";
  JAR_PATH := "/opt/markbind/plantuml.jar";
  child_process_exec := demo_exec;
  cheerio_load := demo_load;
  cheerio_select := demo_select;
  cheerio_html := demo_html
|}.

Definition readonly_world : @World readonly :=
  @mkWorld readonly ∅ ∅ demo_fs [] [].

(** The same collaborators when no child process can be spawned. *)
Definition nospawn : Externals := {|
  FS := DemoFS;
  readFileSync := demo_readFileSync;
  existsSync := demo_existsSync;
  mkdirSync := demo_mkdirSync;
  path_resolve := demo_join;
  path_dirname := demo_dirname;
  path_basename := demo_basename;
  path_join := demo_join;
  MD5 := demo_digest;
  removeExtension := demo_removeExtension;
  ERR_PROCESSING := "Error processing";
  ERR_READING := "Error reading";
  JAR_PATH := "/opt/markbind/plantuml.jar";
  child_process_exec := λ _ _, Ok None;
  cheerio_load := demo_load;
  cheerio_select := demo_select;
  cheerio_html := demo_html
|}.

Definition nospawn_world : @World nospawn :=
  @mkWorld nospawn ∅ ∅ demo_fs [] [].

End Demo.

(** * The list core (spec sections 3 and 4)

    The tokenizer, tree builder and renderer of the list syntaxes are not
    among the source files of the plugin; they are modelled from the
    specification. *)

Module ListCore.

Local Open Scope list_scope.

(** ** Data model *)

(** Modelled from the spec: the kinds a list item can have (data model,
    ListNode.kind); the list core is not among the source files. *)
Inductive ItemKind : Type :=
| Unordered
| Ordered (ordinal : nat)
| Task (checked : bool)
| Radio (selected : bool).

(** Modelled from the spec: the kinds of a ListToken, those of an item plus
    Continuation and Blank. *)
Inductive Kind : Type :=
| Item (k : ItemKind)
| Continuation
| Blank.

(** Modelled from the spec: ListToken, one parsed source line. *)
Record ListToken := mkToken {
  depth : nat;
  kind : Kind;
  text : string
}.

(** Modelled from the spec: a classified line, a token or a non-list line
    that is passed through. *)
Inductive Line : Type :=
| Token (t : ListToken)
| NonList (raw : string).

(** Modelled from the spec: ListNode, with its content as lines (a
    continuation adds a line) and its nested items. *)
#[warnings="-register-all"] Inductive ListNode : Type :=
| Node (kind : ItemKind) (content : list string) (children : list ListNode).

(** ** Tokenizer *)

(** Modelled from the spec: the tab character. *)
Definition tab : ascii := ascii_of_nat 9.

(** Modelled from the spec: the fixed width a tab is converted to. *)
Definition tab_width : nat := 4.

(** Modelled from the spec: the forced-break marker, the one the
    repository's own page on lists ends a line with. *)
Definition forced_break : string := "<br>".

(** Modelled from the spec: whitespace inside a line, a space or a tab. *)
Definition is_ws (c : ascii) : bool :=
  bool_decide (c = " "%char) || bool_decide (c = tab).

(** Modelled from the spec: a decimal digit of an ordinal. *)
Definition is_digit (c : ascii) : bool :=
  bool_decide (48 ≤ nat_of_ascii c ≤ 57)%nat.

(** Modelled from the spec: the width of the leading whitespace and what
    follows it. *)
Fixpoint leading (s : string) : nat * string :=
  match s with
  | String c s' =>
      if bool_decide (c = " "%char) then
        let '(w, r) := leading s' in (S w, r)
      else if bool_decide (c = tab) then
        let '(w, r) := leading s' in (tab_width + w, r)
      else (0, s)
  | EmptyString => (0, s)
  end.

(** Modelled from the spec: the text of an item starts after the whitespace
    that follows its marker. *)
Definition ltrim (s : string) : string := (leading s).2.

(** Modelled from the spec: what follows a literal marker at the start of a
    line, if the line starts with it. *)
Fixpoint strip_prefix (p s : string) : option string :=
  match p with
  | EmptyString => Some s
  | String a p' =>
      match s with
      | String b s' => if bool_decide (a = b) then strip_prefix p' s' else None
      | EmptyString => None
      end
  end.

(** Modelled from the spec: the line ends with the forced-break marker. *)
Fixpoint ends_with (p s : string) : bool :=
  bool_decide (s = p)
  || match s with
     | String _ s' => ends_with p s'
     | EmptyString => false
     end.

(** Modelled from the spec: followed by whitespace, the end of the line
    included (the lines of the ordinal example are literally 1.). *)
Definition at_break (s : string) : bool :=
  match s with
  | EmptyString => true
  | String c _ => is_ws c
  end.

(** Modelled from the spec: the value of the digits of an ordinal, and what
    follows them. *)
Fixpoint digits (s : string) (acc : nat) : nat * string :=
  match s with
  | String c s' =>
      if is_digit c then digits s' (10 * acc + (nat_of_ascii c - 48)) else (acc, s)
  | EmptyString => (acc, s)
  end.

(** Modelled from the spec: the checkbox and radio syntaxes, x in either
    case for a checkbox. *)
Definition boxes : list (string * ItemKind) :=
  [ ("- [ ]", Task false); ("- [x]", Task true); ("- [X]", Task true);
    ("- ( )", Radio false); ("- (x)", Radio true) ].

(** Modelled from the spec: a task or radio item, by its literal box. *)
Fixpoint match_box (bs : list (string * ItemKind)) (s : string)
  : option (ItemKind * string) :=
  match bs with
  | [] => None
  | (p, k) :: bs' =>
      match strip_prefix p s with
      | Some r => Some (k, ltrim r)
      | None => match_box bs' s
      end
  end.

(** Modelled from the spec: an unordered item, a bullet followed by
    whitespace. *)
Definition match_bullet (s : string) : option (ItemKind * string) :=
  match s with
  | String c r =>
      if (bool_decide (c = "-"%char) || bool_decide (c = "*"%char)
          || bool_decide (c = "+"%char)) && at_break r
      then Some (Unordered, ltrim r) else None
  | EmptyString => None
  end.

(** Modelled from the spec: an ordered item, digits and a dot followed by
    whitespace; the ordinal is the value of the digits. *)
Definition match_ordered (s : string) : option (ItemKind * string) :=
  match s with
  | String c _ =>
      if is_digit c then
        match digits s 0 with
        | (n, String d r) =>
            if bool_decide (d = "."%char) && at_break r
            then Some (Ordered n, ltrim r) else None
        | _ => None
        end
      else None
  | EmptyString => None
  end.

(** Modelled from the spec: the detection order of the item markers, first
    match wins: task, radio, bullet, ordinal. *)
Definition marker (s : string) : option (ItemKind * string) :=
  match match_box boxes s with
  | Some r => Some r
  | None =>
      match match_bullet s with
      | Some r => Some r
      | None => match_ordered s
      end
  end.

(** Modelled from the spec: what the tokenizer remembers between lines. *)
Record TokState := mkTokState {
  unit_width : option nat;   (* indentation unit of the current list *)
  prev_item : option nat;    (* indentation of the latest list item *)
  prev_break : bool          (* the previous line ends with the marker *)
}.

(** Modelled from the spec: no list context at the start and after a non-list
    line. *)
Definition tok_init : TokState := mkTokState None None false.

(** Modelled from the spec: the depth is the width divided by the
    indentation unit, which the first nested item of a list fixes. *)
Definition depth_of (st : TokState) (w : nat) : nat * option nat :=
  match unit_width st with
  | Some u => (w / u, Some u)
  | None => if bool_decide (w = 0) then (0, None) else (1, Some w)
  end.

(** Modelled from the spec: the class of one line (section 4.1): blank,
    item, continuation of the previous item, or non-list, which resets the list
    context. *)
Definition classify (st : TokState) (line : string) : Line * TokState :=
  let '(w, rest) := leading line in
  let brk := ends_with forced_break line in
  if bool_decide (rest = "") then
    (Token (mkToken 0 Blank ""), mkTokState (unit_width st) (prev_item st) false)
  else
    match marker rest with
    | Some (k, t) =>
        let '(d, u) := depth_of st w in
        (Token (mkToken d (Item k) t), mkTokState u (Some w) brk)
    | None =>
        match prev_item st with
        | Some wi =>
            if prev_break st || bool_decide (wi < w) then
              let '(d, u) := depth_of st w in
              (Token (mkToken d Continuation rest), mkTokState u (Some wi) brk)
            else (NonList line, tok_init)
        | None => (NonList line, tok_init)
        end
    end.

(** Modelled from the spec: lines are classified in source order, each in the
    context the previous ones left. *)
Fixpoint tokenize_from (st : TokState) (lines : list string) : list Line :=
  match lines with
  | [] => []
  | l :: ls => let '(t, st') := classify st l in t :: tokenize_from st' ls
  end.

(** Modelled from the spec: the tokenizer, lines to tokens in source
    order. *)
Definition tokenize (lines : list string) : list Line := tokenize_from tok_init lines.

(** ** Tree builder *)

(** Modelled from the spec: the kind of a node. *)
Definition node_kind (n : ListNode) : ItemKind :=
  match n with Node k _ _ => k end.

(** Modelled from the spec: a nested item is the last child of its parent. *)
Definition add_child (parent child : ListNode) : ListNode :=
  match parent with
  | Node k c cs => Node k c (cs ++ [child])
  end.

(** Modelled from the spec: a continuation appends a line to the content of an
    item. *)
Definition add_line (n : ListNode) (t : string) : ListNode :=
  match n with
  | Node k c cs => Node k (c ++ [t]) cs
  end.

(** Modelled from the spec: the text without a forced-break marker at its
    end. *)
Fixpoint strip_break (s : string) : string :=
  if bool_decide (s = forced_break) then ""
  else match s with
       | String c s' => String c (strip_break s')
       | EmptyString => ""
       end.

(** Modelled from the spec: a popped item, if any, becomes a child of the item
    below it. *)
Definition attach (carry : option ListNode) (n : ListNode) : ListNode :=
  match carry with
  | Some c => add_child n c
  | None => n
  end.

(** Modelled from the spec: the state of the tree builder, a stack of open
    items with their depths. *)
Record Builder := mkBuilder {
  stack : list (nat * ListNode);     (* open items, the deepest first *)
  roots : list ListNode;             (* closed root items of the current forest *)
  blanks : nat;                      (* blank lines seen in a row *)
  flushed : list (list ListNode)     (* the forests closed so far *)
}.

(** Modelled from the spec: the builder starts with nothing open. *)
Definition builder_init : Builder := mkBuilder [] [] 0 [].

(** Modelled from the spec: pop the open items whose depth is at least [d];
    a popped item becomes the last child of the item below it, or a root. *)
Fixpoint pop_to (d : nat) (carry : option ListNode) (st : list (nat * ListNode))
    (rs : list ListNode) : list (nat * ListNode) * list ListNode :=
  match st with
  | [] => ([], rs ++ option_list carry)
  | (dn, n) :: st' =>
      let n' := attach carry n in
      if bool_decide (d ≤ dn)%nat then pop_to d (Some n') st' rs
      else ((dn, n') :: st', rs)
  end.

(** Modelled from the spec: rounding down, a depth below the deepest open
    level that matches no open level becomes the nearest open level under
    it. *)
Definition effective_depth (st : list (nat * ListNode)) (d : nat) : nat :=
  match st with
  | (top, _) :: _ =>
      if bool_decide (d < top)%nat
      then default d (head (filter (λ dn, dn ≤ d)%nat st.*1))
      else d
  | [] => d
  end.

(** Modelled from the spec: closing every open item gives the forest of the
    current list context. *)
Definition close_all (b : Builder) : list ListNode :=
  (pop_to 0 None (stack b) (roots b)).2.

(** Modelled from the spec: closing all open lists ends the current
    forest. *)
Definition flush (b : Builder) : Builder :=
  match close_all b with
  | [] => mkBuilder [] [] 0 (flushed b)
  | forest => mkBuilder [] [] 0 (flushed b ++ [forest])
  end.

(** Modelled from the spec: the tree builder's step for one token
    (section 4.2). *)
Definition step (b : Builder) (l : Line) : Builder :=
  match l with
  | NonList _ => flush b
  | Token t =>
      match kind t with
      | Blank =>
          if bool_decide (blanks b = 0) then
            mkBuilder (stack b) (roots b) 1 (flushed b)
          else flush b
      | Continuation =>
          match stack b with
          | (d, n) :: st' =>
              mkBuilder ((d, add_line n (strip_break (text t))) :: st') (roots b) 0
                        (flushed b)
          | [] => mkBuilder [] (roots b) 0 (flushed b)
          end
      | Item k =>
          let d := effective_depth (stack b) (depth t) in
          let '(st', rs) := pop_to d None (stack b) (roots b) in
          mkBuilder ((d, Node k [strip_break (text t)] []) :: st') rs 0 (flushed b)
      end
  end.

(** Modelled from the spec: the tree builder, one forest per run of list
    lines. *)
Definition build (ls : list Line) : list (list ListNode) :=
  flushed (flush (fold_left step ls builder_init)).

(** ** Renderer *)

(** Modelled from the spec: ordered items go in an ordered list, the other
    kinds in an unordered one. *)
Definition is_ordered (k : ItemKind) : bool :=
  match k with Ordered _ => true | _ => false end.

(** Modelled from the spec: the native list markup, opening tag. *)
Definition list_open (ordered : bool) : string := if ordered then "<ol>" else "<ul>".
(** Modelled from the spec: the native list markup, closing tag. *)
Definition list_close (ordered : bool) : string := if ordered then "</ol>" else "</ul>".

(** Modelled from the spec: the opening of an item, with its number for an
    ordered item and its control for a task or radio item. *)
Definition item_open (k : ItemKind) (number : nat) : string :=
  match k with
  | Unordered => "<li>"
  | Ordered _ => "<li value=" +:+ pretty number +:+ ">"
  | Task checked =>
      "<li><input type=checkbox disabled" +:+ (if checked then " checked" else "") +:+ "> "
  | Radio selected =>
      "<li><input type=radio disabled" +:+ (if selected then " checked" else "") +:+ "> "
  end.

(** Modelled from the spec: continuation lines are separated by forced line
    breaks inside the item's body. *)
Fixpoint join_lines (ls : list string) : string :=
  match ls with
  | [] => ""
  | [l] => l
  | l :: ls' => l +:+ "<br>" +:+ join_lines ls'
  end.

(** Modelled from the spec: siblings are rendered in runs, ordered items in
    an ordered list and the other kinds in an unordered one; the items of a
    run are numbered from 1 by position. *)
Definition render_siblings (render : nat → ListNode → string) :=
  fix go (open : option bool) (number : nat) (ns : list ListNode) : string :=
    match ns with
    | [] => from_option list_close "" open
    | n :: ns' =>
        let o := is_ordered (node_kind n) in
        if bool_decide (open = Some o) then
          render number n +:+ go (Some o) (S number) ns'
        else
          from_option list_close "" open +:+ list_open o
            +:+ render 1 n +:+ go (Some o) 2 ns'
    end.

(** Modelled from the spec: the renderer of a node (section 4.3), its
    lines joined by forced line breaks and its nested items inside its
    body. *)
Fixpoint render_node (number : nat) (n : ListNode) : string :=
  match n with
  | Node k content cs =>
      item_open k number +:+ join_lines content
        +:+ render_siblings render_node None 1 cs +:+ "</li>"
  end.

(** Modelled from the spec: a forest renders as its root siblings. *)
Definition render_forest (f : list ListNode) : string :=
  render_siblings render_node None 1 f.

(** Modelled from the spec: the renderer, forests to a markup fragment. *)
Definition render (fs : list (list ListNode)) : string :=
  fold_right (λ f acc, render_forest f +:+ acc) "" fs.

(** Modelled from the spec: the data flow, raw lines to markup. *)
Definition render_lines (lines : list string) : string :=
  render (build (tokenize lines)).

(** ** Vocabulary of the properties *)




(** The text starts with one of the five well-formed boxes. *)
Definition well_formed_box (rest : string) : bool :=
  existsb (λ p, String.prefix p rest) ["[ ]"; "[x]"; "[X]"; "( )"; "(x)"].

(** The text opens a box. *)
Definition opens_box (rest : string) : bool :=
  String.prefix "[" rest || String.prefix "(" rest.

Fixpoint spaces (n : nat) : string :=
  match n with
  | 0 => ""
  | S n' => String " "%char (spaces n')
  end.

Fixpoint node_count (n : ListNode) : nat :=
  match n with
  | Node _ _ cs => S (sum_list_with node_count cs)
  end.

Definition forest_count (f : list ListNode) : nat := sum_list_with node_count f.

(** The tokens that open an item. *)
Definition is_item (l : Line) : bool :=
  match l with
  | Token (mkToken _ (Item _) _) => true
  | _ => false
  end.

Definition item_count (ls : list Line) : nat := length (filter is_item ls).

Definition stack_count (st : list (nat * ListNode)) : nat :=
  sum_list_with (λ dn, node_count dn.2) st.

(** The nodes a builder holds: flushed, closed and open. *)
Definition total (b : Builder) : nat :=
  sum_list_with forest_count (flushed b) + forest_count (roots b)
    + stack_count (stack b).

(** The kind of an item with its source ordinal forgotten. *)
Definition forget_kind (k : ItemKind) : ItemKind :=
  match k with
  | Ordered _ => Ordered 1
  | _ => k
  end.


(** A node with the source ordinals forgotten, at every depth. *)
Fixpoint forget_node (n : ListNode) : ListNode :=
  match n with
  | Node k c cs => Node (forget_kind k) c (map forget_node cs)
  end.







End ListCore.

(** * Properties of the plugin *)

Section PluginProperties.
Context `{ext : Externals}.

Ltac munfold :=
  unfold mbind, M_bind, mret, M_ret, gets, modify in *.

(** ** fetchContentInTag *)

Lemma filter_none {A} (P : A → Prop) `{∀ x, Decision (P x)} (l : list A) :
  Forall (λ d, ¬ P d) l → filter P l = [].
Proof.
  induction 1 as [|d l Hd _ IH]; [done|]. rewrite filter_cons_False; done.
Qed.

Lemma forEach_last_text (l : list Element) (content : string) :
  fold_left (λ content child,
               if decide (type child = "text") then data child else content)
            l content
  = match last (filter (λ c, type c = "text") l) with
    | Some c => data c
    | None => content
    end.
Proof.
  revert content. induction l as [|c l IH]; intros content; simpl; [done|].
  rewrite IH. destruct (decide (type c = "text")) as [Ht|Ht].
  - rewrite filter_cons_True by done. rewrite last_cons.
    by destruct (last (filter _ l)).
  - by rewrite filter_cons_False by done.
Qed.

(** C9: fetchContentInTag returns the data of the last child of type
    'text' (a later text child replaces an earlier one, nothing is
    concatenated), and the empty string when the tag has no children array, an
    empty one, or no child of type 'text'. *)
Theorem fetchContentInTag_last_text (h : gmap ref Element) (tag : Element) :
  fetchContentInTag h tag
  = match last (text_children h tag) with
    | Some c => data c
    | None => ""
    end
  ∧ (∀ before after c,
       child_objects h tag = (before ++ c :: after)%list →
       type c = "text" →
       Forall (λ d, type d ≠ "text") after →
       fetchContentInTag h tag = data c)
  ∧ (children tag = None → fetchContentInTag h tag = "")
  ∧ (children tag = Some [] → fetchContentInTag h tag = "")
  ∧ (Forall (λ d, type d ≠ "text") (child_objects h tag) →
       fetchContentInTag h tag = "").
Proof.
  assert (Hmain : fetchContentInTag h tag
                  = match last (text_children h tag) with
                    | Some c => data c
                    | None => ""
                    end).
  { unfold fetchContentInTag, text_children, child_objects.
    destruct (children tag) as [cs|]; [|done]. apply forEach_last_text. }
  split; [exact Hmain|]. repeat split.
  - intros before after c Hk Hc Hafter. rewrite Hmain. unfold text_children.
    rewrite Hk, filter_app, filter_cons_True by done.
    rewrite (filter_none _ after) by done. by rewrite last_snoc.
  - intros Hn. unfold fetchContentInTag. by rewrite Hn.
  - intros Hn. unfold fetchContentInTag. by rewrite Hn.
  - intros Hall. rewrite Hmain. unfold text_children.
    by rewrite filter_none.
Qed.

(** ** getFileName *)

(** C10: getFileName resolves the file name by attribute precedence: a name
    attribute wins and gives <name>.png; otherwise a src attribute gives the
    src path without its extension followed by .png; the hash of the content
    is used only when both are absent, so with a name or a src attribute the
    file name does not depend on the content. *)
Theorem getFileName_precedence (tagAttribs : gmap string string) (content : string) :
  (∀ n, tagAttribs !! "name" = Some n → getFileName tagAttribs content = n ++ ".png")
  ∧ (∀ src, tagAttribs !! "name" = None → tagAttribs !! "src" = Some src →
       getFileName tagAttribs content = removeExtension src ++ ".png")
  ∧ (tagAttribs !! "name" = None → tagAttribs !! "src" = None →
       getFileName tagAttribs content = MD5 content ++ ".png")
  ∧ (is_Some (tagAttribs !! "name") ∨ is_Some (tagAttribs !! "src") →
       ∀ content', getFileName tagAttribs content' = getFileName tagAttribs content).
Proof.
  unfold getFileName. repeat split.
  - intros n ->. done.
  - intros src -> ->. done.
  - intros -> ->. done.
  - intros [[n ->]|[s Hs]] content'; [done|].
    rewrite Hs. by destruct (tagAttribs !! "name").
Qed.

(** ** generateDiagram and the processed-diagrams set *)

Lemma generateDiagram_hit fileName content config w :
  outputFilePath config fileName ∈ processedDiagrams w →
  generateDiagram fileName content config w = (Ok fileName, w).
Proof.
  intros Hin. unfold generateDiagram. munfold.
  by rewrite decide_True.
Qed.

Lemma generateDiagram_miss fileName content config w :
  outputFilePath config fileName ∉ processedDiagrams w →
  generateDiagram fileName content config w =
    let p := outputFilePath config fileName in
    let w1 := with_processed ({[p]} ∪ processedDiagrams w) w in
    if existsSync (fs w) (outputDir config fileName)
    then launch fileName content config w1
    else match mkdirSync (fs w) (outputDir config fileName) with
         | Ok f => launch fileName content config (with_fs f w1)
         | Throw err => (Throw err, w1)
         end.
Proof.
  intros Hin. unfold generateDiagram. munfold.
  rewrite decide_False by done. simpl.
  destruct (existsSync (fs w) _).
  - unfold exec, launch. simpl. by destruct (child_process_exec _ _) as [[f|]|err].
  - unfold mkdir. simpl. destruct (mkdirSync (fs w) _) as [f|err]; [|done].
    unfold exec, launch. simpl. by destruct (child_process_exec _ _) as [[f'|]|err].
Qed.

Lemma launch_ok fileName content config w r w' :
  launch fileName content config w = (Ok r, w') →
  r = fileName
  ∧ (∃ f, child_process_exec (fs w) (plantuml_cmd (outputFilePath config fileName))
          = Ok (Some f) ∧ fs w' = f)
  ∧ nodes w' = nodes w
  ∧ logged w' = logged w
  ∧ processedDiagrams w' = processedDiagrams w
  ∧ spawned w' = (spawned w ++ [spawn_of (outputFilePath config fileName, content)])%list.
Proof.
  unfold launch. destruct (child_process_exec _ _) as [[f|]|err]; [|done|done].
  intros [= <- <-]. split; [done|]. split; [by exists f|done].
Qed.

Lemma launch_throw fileName content config w err w' :
  launch fileName content config w = (Throw err, w') →
  w' = w
  ∧ (child_process_exec (fs w) (plantuml_cmd (outputFilePath config fileName)) = Throw err
     ∨ child_process_exec (fs w) (plantuml_cmd (outputFilePath config fileName)) = Ok None
       ∧ err = "TypeError").
Proof.
  unfold launch. destruct (child_process_exec _ _) as [[f|]|err']; [done| |].
  - intros [= <- <-]. split; [done|]. by right.
  - intros [= <- <-]. split; [done|]. by left.
Qed.

(** A launch changes the launched processes and the file system, nothing
    else. *)
Lemma launch_frame fileName content config w :
  nodes (launch fileName content config w).2 = nodes w
  ∧ logged (launch fileName content config w).2 = logged w
  ∧ processedDiagrams (launch fileName content config w).2 = processedDiagrams w.
Proof. unfold launch. by destruct (child_process_exec _ _) as [[f|]|err]. Qed.

Lemma generateDiagram_returns fileName content config w r w' :
  generateDiagram fileName content config w = (Ok r, w') → r = fileName.
Proof.
  destruct (decide (outputFilePath config fileName ∈ processedDiagrams w)) as [Hin|Hin].
  - rewrite generateDiagram_hit by done. congruence.
  - rewrite generateDiagram_miss by done. simpl.
    destruct (existsSync _ _); [by intros [-> _]%launch_ok|].
    destruct (mkdirSync _ _); [by intros [-> _]%launch_ok|done].
Qed.

Lemma generateDiagram_records fileName content config w :
  outputFilePath config fileName
    ∈ processedDiagrams (generateDiagram fileName content config w).2.
Proof.
  destruct (decide (outputFilePath config fileName ∈ processedDiagrams w)) as [Hin|Hin].
  - by rewrite generateDiagram_hit.
  - rewrite generateDiagram_miss by done. simpl.
    assert (Hp : ∀ w1, outputFilePath config fileName ∈ processedDiagrams w1 →
              outputFilePath config fileName
                ∈ processedDiagrams (launch fileName content config w1).2).
    { intros w1 Hw1. by rewrite (proj2 (proj2 (launch_frame _ _ _ _))). }
    destruct (existsSync _ _); [apply Hp; simpl; set_solver|].
    destruct (mkdirSync _ _); [apply Hp|]; simpl; set_solver.
Qed.

Lemma generated_nil w w' :
  spawned w' = spawned w → processedDiagrams w' = processedDiagrams w →
  generated w w' [].
Proof.
  intros Hs Hp. split; simpl.
  - by rewrite app_nil_r.
  - constructor.
  - intros p Hp'. by apply elem_of_nil in Hp'.
  - intros p Hp'. by apply elem_of_nil in Hp'.
  - by rewrite Hp.
Qed.

Lemma generated_trans w1 w2 w3 g1 g2 :
  generated w1 w2 g1 → generated w2 w3 g2 → generated w1 w3 (g1 ++ g2)%list.
Proof.
  intros [Hs1 Hn1 Hf1 Hr1 Hm1] [Hs2 Hn2 Hf2 Hr2 Hm2]. split.
  - by rewrite Hs2, Hs1, map_app, app_assoc.
  - rewrite fmap_app. apply NoDup_app. repeat split; [done| |done].
    intros p Hp1 Hp2. by apply (Hf2 p), Hr1.
  - intros p. rewrite fmap_app, elem_of_app. intros [Hp|Hp]; [by apply Hf1|].
    intros Hin. by apply (Hf2 p Hp), Hm1.
  - intros p. rewrite fmap_app, elem_of_app. intros [Hp|Hp]; [|by apply Hr2].
    by apply Hm2, Hr1.
  - set_solver.
Qed.

Lemma tracks_ret {A} (a : A) : tracks (mret a).
Proof. intros w. exists []. by apply generated_nil. Qed.

Lemma tracks_bind {A B} (m : M A) (f : A → M B) :
  tracks m → (∀ a, tracks (f a)) → tracks (m ≫= f).
Proof.
  intros Hm Hf w. munfold. destruct (Hm w) as [g1 H1].
  destruct (m w) as [[a|e] w1]; simpl in *.
  - destruct (Hf a w1) as [g2 H2]. exists (g1 ++ g2)%list.
    by eapply generated_trans.
  - by exists g1.
Qed.

Lemma tracks_gets {A} (f : World → A) : tracks (gets f).
Proof. intros w. exists []. by apply generated_nil. Qed.

Lemma tracks_modify (f : World → World) :
  (∀ w, spawned (f w) = spawned w) →
  (∀ w, processedDiagrams (f w) = processedDiagrams w) →
  tracks (modify f).
Proof. intros Hs Hp w. exists []. apply generated_nil; simpl; [apply Hs|apply Hp]. Qed.

Lemma tracks_deref tag : tracks (deref tag).
Proof.
  intros w. exists []. unfold deref.
  destruct (nodes w !! tag); by apply generated_nil.
Qed.

Lemma tracks_update tag f : tracks (update tag f).
Proof.
  apply tracks_bind; [apply tracks_deref|].
  intros e. by apply tracks_modify.
Qed.

Lemma tracks_logger l : tracks (logger l).
Proof. by apply tracks_modify. Qed.

Lemma tracks_getContent element cwf config : tracks (getContent element cwf config).
Proof.
  apply tracks_bind; [apply tracks_deref|]. intros e.
  destruct (attribs e !! "src").
  - apply tracks_bind; [apply tracks_gets|]. intros w.
    destruct (readFileSync _ _); [apply tracks_ret|].
    repeat (apply tracks_bind; [apply tracks_logger|]; intros _).
    apply tracks_ret.
  - apply tracks_bind; [apply tracks_gets|]. intros w. apply tracks_ret.
Qed.

Lemma tracks_generateDiagram fileName content config :
  tracks (generateDiagram fileName content config).
Proof.
  intros w.
  destruct (decide (outputFilePath config fileName ∈ processedDiagrams w)) as [Hin|Hin].
  - rewrite generateDiagram_hit by done. exists []. by apply generated_nil.
  - rewrite generateDiagram_miss by done. simpl.
    assert (Hone : ∀ w',
      spawned w' = (spawned w ++ [mkSpawn (plantuml_cmd (outputFilePath config fileName)) content])%list →
      processedDiagrams w' = {[outputFilePath config fileName]} ∪ processedDiagrams w →
      generated w w' [(outputFilePath config fileName, content)]).
    { intros w' Hs Hpd. split; simpl.
      - done.
      - apply NoDup_singleton.
      - intros p Hq. apply list_elem_of_singleton in Hq as ->. done.
      - intros p Hq. apply list_elem_of_singleton in Hq as ->.
        rewrite Hpd. apply elem_of_union_l. by apply elem_of_singleton.
      - rewrite Hpd. apply union_subseteq_r. }
    assert (Hnone : ∀ w',
      spawned w' = spawned w →
      processedDiagrams w' = {[outputFilePath config fileName]} ∪ processedDiagrams w →
      generated w w' []).
    { intros w' Hs Hpd. split; simpl.
      - by rewrite app_nil_r.
      - constructor.
      - intros p Hp'. by apply elem_of_nil in Hp'.
      - intros p Hp'. by apply elem_of_nil in Hp'.
      - rewrite Hpd. apply union_subseteq_r. }
    assert (Hlaunch : ∀ w1,
      spawned w1 = spawned w →
      processedDiagrams w1 = {[outputFilePath config fileName]} ∪ processedDiagrams w →
      ∃ gen, generated w (launch fileName content config w1).2 gen).
    { intros w1 Hs Hpd. unfold launch.
      destruct (child_process_exec _ _) as [[f|]|err]; simpl.
      - eexists. apply Hone; simpl; [by rewrite Hs|done].
      - eexists. by apply Hnone.
      - eexists. by apply Hnone. }
    destruct (existsSync _ _); [by apply Hlaunch|].
    destruct (mkdirSync _ _); [by apply Hlaunch|].
    eexists. by apply Hnone.
Qed.

Lemma tracks_each_callback config tag : tracks (each_callback config tag).
Proof.
  unfold each_callback.
  apply tracks_bind; [apply tracks_update|]; intros _.
  apply tracks_bind; [apply tracks_deref|]; intros e.
  apply tracks_bind; [apply tracks_getContent|]; intros pumlContent.
  apply tracks_bind; [apply tracks_deref|]; intros e'.
  apply tracks_bind; [apply tracks_generateDiagram|]; intros src.
  apply tracks_bind; [apply tracks_update|]; intros _.
  apply tracks_update.
Qed.

Lemma tracks_each {A} (f : A → M unit) (sel : list A) :
  (∀ a, tracks (f a)) → tracks (each f sel).
Proof.
  intros Hf. induction sel as [|a sel IH]; simpl.
  - apply tracks_ret.
  - apply tracks_bind; [apply Hf|]. by intros _.
Qed.

(** The render pass clears the set first, so what it launches is tracked
    from the cleared state. *)
Lemma preRender_generated content config w :
  ∃ gen, generated (with_processed ∅ w) (preRender content config w).2 gen.
Proof.
  unfold preRender.
  assert (Hrest : tracks (
    let '(h, roots) := cheerio_load content in
    modify (with_nodes h);;
    each (each_callback config) (cheerio_select h roots "puml");;
    h' ← gets nodes;
    mret (cheerio_html h' roots))).
  { destruct (cheerio_load content) as [h roots].
    apply tracks_bind; [by apply tracks_modify|]; intros _.
    apply tracks_bind; [apply tracks_each, tracks_each_callback|]; intros _.
    apply tracks_bind; [apply tracks_gets|]; intros w'. apply tracks_ret. }
  destruct (Hrest (with_processed ∅ w)) as [gen Hgen].
  exists gen. exact Hgen.
Qed.

Lemma after_calls_generated config calls w :
  ∃ gen, generated w (after_calls config calls w) gen.
Proof.
  revert w. induction calls as [|c calls IH]; intros w; simpl.
  - exists []. by apply generated_nil.
  - destruct (tracks_generateDiagram c.1 c.2 config w) as [g1 H1].
    destruct (IH (generateDiagram c.1 c.2 config w).2) as [g2 H2].
    exists (g1 ++ g2)%list. by eapply generated_trans.
Qed.

(** C1: a <puml> tag with neither a name nor a src attribute gets the MD5
    hash of its content followed by .png as file name; two such tags with the
    same content therefore get the same output file path, the second
    generateDiagram call for it launches nothing, and within one render pass
    no output file path is launched twice. *)
Theorem content_hash_dedup (a1 a2 : gmap string string) (content : string)
    (config : Config) :
  a1 !! "name" = None → a1 !! "src" = None →
  a2 !! "name" = None → a2 !! "src" = None →
  getFileName a1 content = MD5 content ++ ".png"
  ∧ outputFilePath config (getFileName a1 content)
    = outputFilePath config (getFileName a2 content)
  ∧ (∀ w, let w1 := (generateDiagram (getFileName a1 content) content config w).2 in
          generateDiagram (getFileName a2 content) content config w1
          = (Ok (getFileName a2 content), w1))
  ∧ (∀ page w, ∃ gen,
       spawned (preRender page config w).2 = (spawned w ++ map spawn_of gen)%list
       ∧ NoDup gen.*1).
Proof.
  intros Hn1 Hs1 Hn2 Hs2.
  assert (Hname : ∀ a, a !! "name" = None → a !! "src" = None →
                       getFileName a content = MD5 content ++ ".png").
  { intros a Hn Hs. unfold getFileName. by rewrite Hn, Hs. }
  rewrite !Hname by done. repeat split.
  - intros w w1. apply generateDiagram_hit. apply generateDiagram_records.
  - intros page w. destruct (preRender_generated page config w) as [gen Hgen].
    exists gen. split; [apply (gen_spawned _ _ _ Hgen)|apply (gen_nodup _ _ _ Hgen)].
Qed.

(** C2: generateDiagram always returns its file name; once the output
    file path is in the processed-diagrams set a call leaves the whole state
    as it is (no directory is created, no process is launched), so a second
    call with the same file name and config does nothing; and over any
    sequence of calls no output file path is launched twice nor launched when
    it was in the set already. *)
Theorem generateDiagram_idempotent (fileName content : string) (config : Config)
    (w : World) :
  (outputFilePath config fileName ∈ processedDiagrams w →
     generateDiagram fileName content config w = (Ok fileName, w))
  ∧ (∀ r w', generateDiagram fileName content config w = (Ok r, w') → r = fileName)
  ∧ (∀ content',
       let w1 := (generateDiagram fileName content config w).2 in
       generateDiagram fileName content' config w1 = (Ok fileName, w1))
  ∧ (∀ calls, ∃ gen, generated w (after_calls config calls w) gen).
Proof.
  repeat split.
  - apply generateDiagram_hit.
  - apply generateDiagram_returns.
  - intros content' w1. apply generateDiagram_hit, generateDiagram_records.
  - intros calls. apply after_calls_generated.
Qed.

(** C3: preRender clears the processed-diagrams set before it looks at any
    tag: whatever set an earlier pass left behind, the pass returns the same
    result and leaves the same state (the same set, the same launched
    processes), and the set it works from is the empty one. *)
Theorem preRender_clears_cache (content : string) (config : Config) (w : World)
    (left_over : gset string) :
  preRender content config (with_processed left_over w) = preRender content config w
  ∧ preRender content config w
    = (let '(h, roots) := cheerio_load content in
       each (each_callback config) (cheerio_select h roots "puml");;
       h' ← gets nodes;
       mret (cheerio_html h' roots))
        (with_nodes (cheerio_load content).1 (with_processed ∅ w)).
Proof.
  unfold preRender. munfold. simpl.
  destruct (cheerio_load content) as [h roots]. simpl. done.
Qed.

(** ** What the result of a pass depends on *)

Lemma oblivious_ret {A} (a : A) : oblivious (mret a).
Proof. by intros w1 w2 H. Qed.

Lemma oblivious_bind {A B} (m : M A) (f : A → M B) :
  oblivious m → (∀ a, oblivious (f a)) → oblivious (m ≫= f).
Proof.
  intros Hm Hf w1 w2 H. munfold. destruct (Hm w1 w2 H) as [Hr Hw].
  destruct (m w1) as [[a1|e1] w1'], (m w2) as [[a2|e2] w2']; simpl in *;
    try discriminate.
  - injection Hr as ->. by apply Hf.
  - by injection Hr as ->.
Qed.

Lemma oblivious_gets {A} (f : World → A) :
  (∀ w1 w2, same_inputs w1 w2 → f w1 = f w2) → oblivious (gets f).
Proof. intros Hf w1 w2 H. unfold gets; simpl. by rewrite (Hf w1 w2 H). Qed.

Lemma oblivious_modify (f : World → World) :
  (∀ w1 w2, same_inputs w1 w2 → same_inputs (f w1) (f w2)) → oblivious (modify f).
Proof. intros Hf w1 w2 H. unfold modify; simpl. split; [done|by apply Hf]. Qed.

Lemma oblivious_deref tag : oblivious (deref tag).
Proof.
  intros w1 w2 H. unfold deref. destruct H as (Hn & Hp & Hf). rewrite Hn.
  by destruct (nodes w2 !! tag).
Qed.

Lemma oblivious_update tag f : oblivious (update tag f).
Proof.
  apply oblivious_bind; [apply oblivious_deref|]. intros e.
  apply oblivious_modify. intros w1 w2 (Hn & Hp & Hf).
  unfold same_inputs; simpl. by rewrite Hn.
Qed.

Lemma oblivious_logger l : oblivious (logger l).
Proof. by apply oblivious_modify. Qed.

Lemma oblivious_exec c content : oblivious (exec c content).
Proof.
  intros w1 w2 (Hn & Hp & Hf). unfold exec. rewrite Hf.
  by destruct (child_process_exec (fs w2) c) as [[f|]|err].
Qed.

Lemma oblivious_mkdir dir : oblivious (mkdir dir).
Proof.
  intros w1 w2 (Hn & Hp & Hf). unfold mkdir. rewrite Hf.
  by destruct (mkdirSync (fs w2) dir).
Qed.

Lemma oblivious_getContent element cwf config :
  oblivious (getContent element cwf config).
Proof.
  apply oblivious_bind; [apply oblivious_deref|]. intros e.
  destruct (attribs e !! "src").
  - apply oblivious_bind; [apply oblivious_gets; by intros ?? (?&?&?)|]. intros f.
    destruct (readFileSync _ _); [apply oblivious_ret|].
    repeat (apply oblivious_bind; [apply oblivious_logger|]; intros _).
    apply oblivious_ret.
  - apply oblivious_bind; [apply oblivious_gets; by intros ?? (?&?&?)|]. intros h.
    apply oblivious_ret.
Qed.

Lemma oblivious_generateDiagram fileName content config :
  oblivious (generateDiagram fileName content config).
Proof.
  apply oblivious_bind; [apply oblivious_gets; by intros ?? (?&?&?)|]. intros pd.
  destruct (decide _); [apply oblivious_ret|].
  apply oblivious_bind.
  { apply oblivious_modify. intros w1 w2 (Hn & Hp & Hf).
    unfold same_inputs; simpl. by rewrite Hp. }
  intros _.
  apply oblivious_bind; [apply oblivious_gets; by intros ?? (?&?&?)|]. intros f.
  apply oblivious_bind.
  { destruct (existsSync _ _); [apply oblivious_ret|apply oblivious_mkdir]. }
  intros _.
  apply oblivious_bind; [apply oblivious_exec|]. intros _. apply oblivious_ret.
Qed.

Lemma oblivious_each_callback config tag : oblivious (each_callback config tag).
Proof.
  unfold each_callback.
  apply oblivious_bind; [apply oblivious_update|]; intros _.
  apply oblivious_bind; [apply oblivious_deref|]; intros e.
  apply oblivious_bind; [apply oblivious_getContent|]; intros pumlContent.
  apply oblivious_bind; [apply oblivious_deref|]; intros e'.
  apply oblivious_bind; [apply oblivious_generateDiagram|]; intros src.
  apply oblivious_bind; [apply oblivious_update|]; intros _.
  apply oblivious_update.
Qed.

Lemma oblivious_each {A} (f : A → M unit) (sel : list A) :
  (∀ a, oblivious (f a)) → oblivious (each f sel).
Proof.
  intros Hf. induction sel as [|a sel IH]; simpl.
  - apply oblivious_ret.
  - apply oblivious_bind; [apply Hf|]. by intros _.
Qed.

(** C5: the string a render pass returns (or the exception it throws) is a
    function of the content, the config and the file system: two runs that
    start from the same file-system state give the same output, whatever the
    processed-diagrams set, the previously parsed documents, the launched
    processes and the log were. *)
Theorem preRender_deterministic (content : string) (config : Config) (w1 w2 : World) :
  fs w1 = fs w2 →
  (preRender content config w1).1 = (preRender content config w2).1.
Proof.
  intros Hfs. unfold preRender. munfold. simpl.
  destruct (cheerio_load content) as [h roots]. simpl.
  assert (Hrest : oblivious (
    each (each_callback config) (cheerio_select h roots "puml");;
    h' ← gets nodes;
    mret (cheerio_html h' roots))).
  { apply oblivious_bind; [apply oblivious_each, oblivious_each_callback|]; intros _.
    apply oblivious_bind; [apply oblivious_gets; by intros ?? (?&?&?)|]; intros h'.
    apply oblivious_ret. }
  apply (Hrest (with_nodes h (with_processed ∅ w1))
               (with_nodes h (with_processed ∅ w2))).
  by unfold same_inputs.
Qed.

(** ** The document after a pass *)

Lemma getFileName_src_indep (a : gmap string string) (c c' : string) :
  is_Some (a !! "src") → getFileName a c = getFileName a c'.
Proof.
  intros [src Hs]. unfold getFileName. rewrite Hs. by destruct (a !! "name").
Qed.

Lemma getContent_eq element cwf config w e :
  nodes w !! element = Some e →
  getContent element cwf config w =
    match attribs e !! "src" with
    | Some src =>
        let p := rawDiagramPath cwf config src in
        match readFileSync (fs w) p with
        | Ok s => (Ok s, w)
        | Throw err =>
            (Ok "", with_logged (logged w ++ [LogDebug err;
                                              LogError (ERR_READING ++ " " ++ p)]) w)
        end
    | None => (Ok (fetchContentInTag (nodes w) e), w)
    end.
Proof.
  intros He. unfold getContent, deref. munfold. rewrite He.
  destruct (attribs e !! "src") as [src|]; [|done]. simpl.
  destruct (readFileSync _ _); [done|].
  unfold logger. munfold. simpl. unfold with_logged; simpl.
  by rewrite <- app_assoc.
Qed.

Lemma generateDiagram_nodes fileName content config w :
  nodes (generateDiagram fileName content config w).2 = nodes w.
Proof.
  destruct (decide (outputFilePath config fileName ∈ processedDiagrams w)) as [Hin|Hin].
  - by rewrite generateDiagram_hit.
  - rewrite generateDiagram_miss by done. simpl.
    destruct (existsSync _ _); [by rewrite (proj1 (launch_frame _ _ _ _))|].
    destruct (mkdirSync _ _); [by rewrite (proj1 (launch_frame _ _ _ _))|done].
Qed.

Lemma each_callback_eq config tag w e :
  nodes w !! tag = Some e →
  each_callback config tag w =
    let w1 := with_nodes (<[tag := set_name "pic" e]> (nodes w)) w in
    match getContent tag (attribs e !! "cwf") config w1 with
    | (Ok pumlContent, w2) =>
        match generateDiagram (getFileName (attribs e) pumlContent) pumlContent config w2 with
        | (Ok src, w3) => (Ok tt, with_nodes (<[tag := as_pic src e]> (nodes w3)) w3)
        | (Throw err, w3) => (Throw err, w3)
        end
    | (Throw err, w2) => (Throw err, w2)
    end.
Proof.
  intros He. unfold each_callback, update, deref. munfold. rewrite He. simpl.
  rewrite lookup_insert_eq. simpl.
  set (w1 := with_nodes _ w).
  assert (H1 : nodes w1 !! tag = Some (set_name "pic" e))
    by (unfold w1; simpl; apply lookup_insert_eq).
  pose proof (getContent_eq tag (attribs e !! "cwf") config w1 _ H1) as Hc.
  assert (Hn2 : nodes (getContent tag (attribs e !! "cwf") config w1).2 = nodes w1).
  { rewrite Hc. simpl. destruct (attribs e !! "src"); [|done].
    by destruct (readFileSync _ _). }
  destruct (getContent tag (attribs e !! "cwf") config w1) as [[c|err] w2];
    [|done]. simpl in Hn2.
  rewrite Hn2, lookup_insert_eq. simpl.
  pose proof (generateDiagram_nodes (getFileName (attribs e) c) c config w2) as Hn3.
  destruct (generateDiagram _ c config w2) as [[src|err] w3]; [|done].
  simpl in Hn3. rewrite Hn3, Hn2, lookup_insert_eq. simpl.
  rewrite lookup_insert_eq. simpl.
  rewrite !insert_insert_eq. unfold with_nodes; simpl. rewrite Hn3, Hn2.
  by rewrite !insert_insert_eq.
Qed.

Lemma forEach_same_text h0 h (cs : list ref) (content : string) :
  same_text h0 h →
  fold_left (λ content child,
               if decide (type child = "text") then data child else content)
            (omap (λ c, h !! c) cs) content
  = fold_left (λ content child,
                 if decide (type child = "text") then data child else content)
              (omap (λ c, h0 !! c) cs) content.
Proof.
  intros Hst. revert content. induction cs as [|c cs IH]; intros content; [done|].
  simpl. specialize (Hst c).
  destruct (h !! c) as [e|], (h0 !! c) as [e0|]; simpl in *; try discriminate.
  - injection Hst as Ht Hd. rewrite Ht, Hd. apply IH.
  - apply IH.
Qed.

Lemma fetchContentInTag_same_text h0 h tag :
  same_text h0 h → fetchContentInTag h tag = fetchContentInTag h0 tag.
Proof.
  intros Hst. unfold fetchContentInTag.
  destruct (children tag) as [cs|]; [|done]. by apply forEach_same_text.
Qed.

Lemma same_text_insert h0 h tag e e' :
  same_text h0 h → h !! tag = Some e → type e' = type e → data e' = data e →
  same_text h0 (<[tag := e']> h).
Proof.
  intros Hst He Ht Hd r. destruct (decide (tag = r)) as [<-|Hne].
  - rewrite lookup_insert_eq. rewrite <- (Hst tag), He. simpl. by rewrite Ht, Hd.
  - rewrite lookup_insert_ne by done. apply Hst.
Qed.

Lemma each_callback_nodes h0 config tag w w' e :
  same_text h0 (nodes w) →
  nodes w !! tag = Some e → h0 !! tag = Some e →
  each_callback config tag w = (Ok tt, w') →
  nodes w' = <[tag := as_pic (diagramFileName h0 e) e]> (nodes w).
Proof.
  intros Hst He He0. rewrite (each_callback_eq _ _ _ _ He). simpl.
  set (w1 := with_nodes _ w).
  assert (H1 : nodes w1 !! tag = Some (set_name "pic" e))
    by (unfold w1; simpl; apply lookup_insert_eq).
  assert (Hst1 : same_text h0 (nodes w1)).
  { unfold w1; simpl. by eapply same_text_insert. }
  rewrite (getContent_eq _ _ _ _ _ H1). simpl.
  assert (Hgen : ∀ c w2, nodes w2 = nodes w1 →
            getFileName (attribs e) c = diagramFileName h0 e →
            match generateDiagram (getFileName (attribs e) c) c config w2 with
            | (Ok src, w3) => (Ok tt, with_nodes (<[tag := as_pic src e]> (nodes w3)) w3)
            | (Throw err, w3) => (Throw err, w3)
            end = (Ok tt, w') →
            nodes w' = <[tag := as_pic (diagramFileName h0 e) e]> (nodes w)).
  { intros c w2 Hn2 Hfn.
    pose proof (generateDiagram_nodes (getFileName (attribs e) c) c config w2) as Hn3.
    destruct (generateDiagram _ c config w2) as [[src|err] w3] eqn:Hg; [|done].
    apply generateDiagram_returns in Hg as ->. simpl in Hn3.
    intros [= <-]. simpl. rewrite Hn3, Hn2, Hfn. unfold w1; simpl.
    by rewrite insert_insert_eq. }
  destruct (attribs e !! "src") as [src|] eqn:Hsrc.
  - assert (Hfn : ∀ c, getFileName (attribs e) c = diagramFileName h0 e).
    { intros c. apply getFileName_src_indep. by rewrite Hsrc. }
    destruct (readFileSync _ _); apply Hgen; auto.
  - apply Hgen; [done|]. unfold diagramFileName. f_equal.
    rewrite (fetchContentInTag_same_text h0) by done.
    by unfold fetchContentInTag.
Qed.

Lemma each_callback_dangling config tag w r w' :
  nodes w !! tag = None → each_callback config tag w = (r, w') → r ≠ Ok tt.
Proof.
  intros Hn. unfold each_callback, update, deref. munfold. rewrite Hn.
  by intros [= <- <-].
Qed.

Lemma each_nodes h0 config (sel : list ref) (w w' : World) :
  NoDup sel →
  same_text h0 (nodes w) →
  (∀ r, r ∈ sel → nodes w !! r = h0 !! r) →
  each (each_callback config) sel w = (Ok tt, w') →
  (∀ r, r ∈ sel → ∃ e0, h0 !! r = Some e0
                        ∧ nodes w' !! r = Some (as_pic (diagramFileName h0 e0) e0))
  ∧ (∀ r, r ∉ sel → nodes w' !! r = nodes w !! r).
Proof.
  intros Hnd. revert w. induction Hnd as [|tag sel Hnotin Hnd IH]; intros w Hst Hsame.
  - simpl. munfold. intros [= <-]. split; [|done].
    intros r Hr. by apply elem_of_nil in Hr.
  - simpl. munfold.
    destruct (each_callback config tag w) as [[[]|err] w1] eqn:Hcb; [|done].
    intros Hrest.
    destruct (nodes w !! tag) as [e|] eqn:He.
    2:{ by apply (each_callback_dangling _ _ _ _ _ He) in Hcb. }
    assert (He0 : h0 !! tag = Some e) by (rewrite <- Hsame; [done|left]).
    pose proof (each_callback_nodes h0 _ _ _ _ _ Hst He He0 Hcb) as Hn1.
    destruct (IH w1) as [Hin Hout]; [| |done|].
    + rewrite Hn1. by eapply same_text_insert.
    + intros r Hr. rewrite Hn1, lookup_insert_ne; [apply Hsame; by right|].
      intros ->. done.
    + split.
      * intros r [->|Hr]%elem_of_cons; [|by apply Hin].
        exists e. split; [done|]. rewrite Hout by done.
        rewrite Hn1. apply lookup_insert_eq.
      * intros r [Hne Hr]%not_elem_of_cons. rewrite Hout by done.
        rewrite Hn1. by apply lookup_insert_ne.
Qed.

(** C4: when preRender returns, every element the selection of 'puml' gave
    (cheerio yields each element of the document once) is named 'pic', has its
    src attribute set to the file name of its diagram (generateDiagram returns
    the name getFileName gave for the element's attributes and content; with a
    src attribute that name does not depend on the content read from the
    file), has an empty children array and keeps its type, its data and its
    other attributes; every other object is what the parser produced; the
    returned string is the serialization of that document. *)
Theorem preRender_converts_puml (content : string) (config : Config) (w w' : World)
    (out : string) :
  NoDup (cheerio_select (cheerio_load content).1 (cheerio_load content).2 "puml") →
  preRender content config w = (Ok out, w') →
  let h0 := (cheerio_load content).1 in
  let roots := (cheerio_load content).2 in
  (∀ tag, tag ∈ cheerio_select h0 roots "puml" →
     ∃ e0, h0 !! tag = Some e0
           ∧ nodes w' !! tag
             = Some (mkElement (type e0) "pic"
                       (<["src" := getFileName (attribs e0) (fetchContentInTag h0 e0)]>
                          (attribs e0))
                       (Some []) (data e0)))
  ∧ (∀ r, r ∉ cheerio_select h0 roots "puml" → nodes w' !! r = h0 !! r)
  ∧ out = cheerio_html (nodes w') roots.
Proof.
  unfold preRender. munfold. simpl.
  destruct (cheerio_load content) as [h0 roots]. simpl.
  intros Hnd Hrun.
  set (w0 := with_nodes h0 (with_processed ∅ w)) in *.
  destruct (each (each_callback config) _ w0) as [[[]|err] w1] eqn:Heach; [|done].
  injection Hrun as <- <-.
  destruct (each_nodes h0 config _ w0 w1 Hnd) as [Hin Hout]; [done|done|done|].
  split; [|split]; [exact Hin|exact Hout|done].
Qed.

(** C8: for an element with a src attribute whose file cannot be read,
    getContent returns the empty string and only writes to the log; the
    callback then goes on exactly as for an empty diagram: generateDiagram is
    called with the empty content, and unless creating the output directory
    or spawning the child process fails, the element is turned into a <pic>
    and, when its output file path was not processed yet, one process is
    launched with the empty string as its input. *)
Theorem getContent_unreadable_src (element : ref) (config : Config) (w : World)
    (e : Element) (src : string) :
  nodes w !! element = Some e →
  attribs e !! "src" = Some src →
  (∀ cwf err,
     readFileSync (fs w) (rawDiagramPath cwf config src) = Throw err →
     getContent element cwf config w
     = (Ok "", with_logged (logged w ++ [LogDebug err;
                              LogError (ERR_READING ++ " " ++ rawDiagramPath cwf config src)]) w))
  ∧ (∀ err,
       readFileSync (fs w) (rawDiagramPath (attribs e !! "cwf") config src) = Throw err →
       each_callback config element w
       = (src' ← generateDiagram (getFileName (attribs e) "") "" config;
          modify (λ w, with_nodes (<[element := as_pic src' e]> (nodes w)) w))
           (with_logged
              (logged w ++ [LogDebug err;
                 LogError (ERR_READING ++ " "
                             ++ rawDiagramPath (attribs e !! "cwf") config src)])
              (with_nodes (<[element := set_name "pic" e]> (nodes w)) w)))
  ∧ (∀ err,
       readFileSync (fs w) (rawDiagramPath (attribs e !! "cwf") config src) = Throw err →
       let fileName := getFileName (attribs e) "" in
       let c := plantuml_cmd (outputFilePath config fileName) in
       outputFilePath config fileName ∈ processedDiagrams w
       ∨ (existsSync (fs w) (outputDir config fileName) = true
          ∧ ∃ f', child_process_exec (fs w) c = Ok (Some f'))
       ∨ (existsSync (fs w) (outputDir config fileName) = false
          ∧ ∃ f f', mkdirSync (fs w) (outputDir config fileName) = Ok f
                    ∧ child_process_exec f c = Ok (Some f')) →
       ∃ w', each_callback config element w = (Ok tt, w')
             ∧ nodes w' = <[element := as_pic fileName e]> (nodes w)
             ∧ (outputFilePath config fileName ∉ processedDiagrams w →
                spawned w'
                = (spawned w
                     ++ [mkSpawn (plantuml_cmd (outputFilePath config fileName)) ""])%list)).
Proof.
  intros He Hsrc.
  assert (Hcb : ∀ err,
    readFileSync (fs w) (rawDiagramPath (attribs e !! "cwf") config src) = Throw err →
    each_callback config element w
    = (src' ← generateDiagram (getFileName (attribs e) "") "" config;
       modify (λ w, with_nodes (<[element := as_pic src' e]> (nodes w)) w))
        (with_logged
           (logged w ++ [LogDebug err;
              LogError (ERR_READING ++ " "
                          ++ rawDiagramPath (attribs e !! "cwf") config src)])
           (with_nodes (<[element := set_name "pic" e]> (nodes w)) w))).
  { intros err Hread. rewrite (each_callback_eq _ _ _ _ He). simpl.
    set (w1 := with_nodes _ w).
    assert (H1 : nodes w1 !! element = Some (set_name "pic" e))
      by (unfold w1; simpl; apply lookup_insert_eq).
    rewrite (getContent_eq _ _ _ _ _ H1). simpl. rewrite Hsrc. simpl.
    rewrite Hread. munfold. done. }
  split; [|split; [exact Hcb|]].
  - intros cwf err Hread. rewrite (getContent_eq _ _ _ _ _ He), Hsrc. simpl.
    by rewrite Hread.
  - intros err Hread fileName c Hcan. rewrite (Hcb err Hread). munfold.
    fold fileName. set (w1 := with_logged _ _).
    destruct (decide (outputFilePath config fileName ∈ processedDiagrams w)) as [Hin|Hin].
    + rewrite generateDiagram_hit by done. eexists. split; [done|]. simpl.
      split; [by rewrite insert_insert_eq|done].
    + rewrite generateDiagram_miss by done. simpl. unfold launch. simpl. fold c.
      destruct Hcan as [?|[[Hex [f' Hsp]]|[Hex (f & f' & Hmk & Hsp)]]]; [done| |].
      * rewrite Hex, Hsp. eexists. split; [done|]. simpl.
        split; [by rewrite insert_insert_eq|done].
      * rewrite Hex, Hmk. simpl. rewrite Hsp. eexists. split; [done|]. simpl.
        split; [by rewrite insert_insert_eq|done].
Qed.

(** ** One callback, one call of generateDiagram *)

Lemma pumlContent_fileName h0 f config e :
  getFileName (attribs e) (pumlContent h0 f config e) = diagramFileName h0 e.
Proof.
  unfold pumlContent, diagramFileName.
  destruct (attribs e !! "src") as [src|] eqn:Hsrc; [|done].
  apply getFileName_src_indep. by rewrite Hsrc.
Qed.

Lemma each_callback_run h0 config tag w e :
  same_text h0 (nodes w) →
  nodes w !! tag = Some e →
  each_callback config tag w =
    let c := pumlContent h0 (fs w) config e in
    let w2 := with_logged (logged w ++ read_log (fs w) config e)
                (with_nodes (<[tag := set_name "pic" e]> (nodes w)) w) in
    match generateDiagram (getFileName (attribs e) c) c config w2 with
    | (Ok src, w3) => (Ok tt, with_nodes (<[tag := as_pic src e]> (nodes w3)) w3)
    | (Throw err, w3) => (Throw err, w3)
    end.
Proof.
  intros Hst He. rewrite (each_callback_eq _ _ _ _ He). simpl.
  set (w1 := with_nodes _ w).
  assert (H1 : nodes w1 !! tag = Some (set_name "pic" e))
    by (unfold w1; simpl; apply lookup_insert_eq).
  assert (Hst1 : same_text h0 (nodes w1)).
  { unfold w1; simpl. by eapply same_text_insert. }
  rewrite (getContent_eq _ _ _ _ _ H1). simpl.
  unfold pumlContent, read_log.
  destruct (attribs e !! "src") as [src|].
  - destruct (readFileSync _ _); [|done].
    unfold with_logged. rewrite app_nil_r. done.
  - unfold with_logged. rewrite app_nil_r.
    rewrite (fetchContentInTag_same_text h0) by done. done.
Qed.

Lemma generateDiagram_ok fileName content config w src w' :
  generateDiagram fileName content config w = (Ok src, w') →
  let p := outputFilePath config fileName in
  src = fileName
  ∧ nodes w' = nodes w
  ∧ logged w' = logged w
  ∧ processedDiagrams w' = {[p]} ∪ processedDiagrams w
  ∧ spawned w'
    = (spawned w ++ if decide (p ∈ processedDiagrams w) then []
                    else [spawn_of (p, content)])%list.
Proof.
  intros Hg p. pose proof (generateDiagram_returns _ _ _ _ _ _ Hg) as ->.
  split; [done|]. revert Hg.
  destruct (decide (p ∈ processedDiagrams w)) as [Hin|Hin].
  - rewrite generateDiagram_hit by done. intros [= <-].
    rewrite app_nil_r. repeat split. apply leibniz_equiv. intros x.
    rewrite elem_of_union, elem_of_singleton.
    split; [by right|by intros [->|?]].
  - rewrite generateDiagram_miss by done. simpl.
    assert (Hl : ∀ w1, launch fileName content config w1 = (Ok fileName, w') →
              nodes w' = nodes w1 ∧ logged w' = logged w1
              ∧ processedDiagrams w' = processedDiagrams w1
              ∧ spawned w' = (spawned w1 ++ [spawn_of (p, content)])%list).
    { intros w1 (_ & _ & Hn & Hl & Hp & Hs)%launch_ok. done. }
    destruct (existsSync _ _); [by intros ?%Hl|].
    destruct (mkdirSync _ _); [by intros ?%Hl|done].
Qed.

Lemma generateDiagram_throw fileName content config w err w' :
  generateDiagram fileName content config w = (Throw err, w') →
  let p := outputFilePath config fileName in
  (p ∈ processedDiagrams w')
  ∧ (existsSync (fs w') (outputDir config fileName) = false
     ∧ mkdirSync (fs w') (outputDir config fileName) = Throw err
     ∨ child_process_exec (fs w') (plantuml_cmd p) = Throw err
     ∨ child_process_exec (fs w') (plantuml_cmd p) = Ok None ∧ err = "TypeError").
Proof.
  intros Hg p. revert Hg.
  destruct (decide (p ∈ processedDiagrams w)) as [Hin|Hin].
  - by rewrite generateDiagram_hit.
  - rewrite generateDiagram_miss by done. simpl.
    assert (Hl : ∀ w1, p ∈ processedDiagrams w1 →
              launch fileName content config w1 = (Throw err, w') →
              p ∈ processedDiagrams w'
              ∧ (existsSync (fs w') (outputDir config fileName) = false
                 ∧ mkdirSync (fs w') (outputDir config fileName) = Throw err
                 ∨ child_process_exec (fs w') (plantuml_cmd p) = Throw err
                 ∨ child_process_exec (fs w') (plantuml_cmd p) = Ok None
                   ∧ err = "TypeError")).
    { intros w1 Hp1 [-> Hwhy]%launch_throw. split; [done|]. by right. }
    assert (Hp : p ∈ {[p]} ∪ processedDiagrams w)
      by (apply elem_of_union_l; by apply elem_of_singleton).
    destruct (existsSync (fs w) (outputDir config fileName)) eqn:Hex; [by apply Hl|].
    destruct (mkdirSync (fs w) (outputDir config fileName)) as [f|err'] eqn:Hmk;
      [by apply Hl|].
    intros [= -> <-]. simpl. split; [done|]. by left.
Qed.

(** What the loop keeps: the objects of the tags still to come are the
    parser's, and no object changed its type or data. *)
Lemma callback_keeps h0 tag sel w e src (h1 : gmap ref Element) :
  NoDup (tag :: sel) →
  same_text h0 (nodes w) →
  (∀ r, r ∈ tag :: sel → nodes w !! r = h0 !! r) →
  nodes w !! tag = Some e →
  h1 = <[tag := as_pic src e]> (nodes w) →
  same_text h0 h1 ∧ (∀ r, r ∈ sel → h1 !! r = h0 !! r).
Proof.
  intros Hnd Hst Hsame He ->. apply NoDup_cons in Hnd as [Hnotin Hnd]. split.
  - by eapply same_text_insert.
  - intros r Hr. rewrite lookup_insert_ne; [apply Hsame; by right|].
    intros ->. done.
Qed.

(** ** A whole pass *)

Lemma tag_paths_cons h0 config tag sel e :
  h0 !! tag = Some e →
  tag_paths h0 config (tag :: sel)
  = outputFilePath config (diagramFileName h0 e) :: tag_paths h0 config sel.
Proof. intros He. unfold tag_paths. simpl. by rewrite He. Qed.

Lemma each_exact h0 config (sel : list ref) (w w' : World) :
  NoDup sel →
  same_text h0 (nodes w) →
  (∀ r, r ∈ sel → nodes w !! r = h0 !! r) →
  each (each_callback config) sel w = (Ok tt, w') →
  processedDiagrams w' = list_to_set (tag_paths h0 config sel) ∪ processedDiagrams w
  ∧ ∃ gen, spawned w' = (spawned w ++ map spawn_of gen)%list
           ∧ NoDup gen.*1
           ∧ ∀ p, p ∈ gen.*1 ↔ p ∈ tag_paths h0 config sel ∧ p ∉ processedDiagrams w.
Proof.
  intros Hnd. revert w. induction sel as [|tag sel IH]; intros w Hst Hsame.
  - simpl. munfold. intros [= <-]. split.
    + apply leibniz_equiv. intros x. unfold tag_paths. simpl.
      rewrite elem_of_union, elem_of_empty. tauto.
    + exists []. simpl. rewrite app_nil_r. split; [done|]. split; [constructor|].
      intros p. unfold tag_paths. simpl. rewrite elem_of_nil. tauto.
  - simpl. munfold.
    destruct (each_callback config tag w) as [[[]|err] w1] eqn:Hcb; [|done].
    intros Hrest.
    destruct (nodes w !! tag) as [e|] eqn:He.
    2:{ by apply (each_callback_dangling _ _ _ _ _ He) in Hcb. }
    assert (He0 : h0 !! tag = Some e) by (rewrite <- Hsame; [done|left]).
    rewrite (each_callback_run h0 _ _ _ _ Hst He) in Hcb. simpl in Hcb.
    rewrite pumlContent_fileName in Hcb.
    destruct (generateDiagram _ _ config _) as [[src|err] w3] eqn:Hg; [|done].
    injection Hcb as <-.
    apply generateDiagram_ok in Hg as (-> & Hn3 & _ & Hp3 & Hs3). simpl in *.
    set (p := outputFilePath config (diagramFileName h0 e)) in *.
    destruct (callback_keeps h0 tag sel w e (diagramFileName h0 e)
                (<[tag := as_pic (diagramFileName h0 e) e]> (nodes w3)))
      as [Hst1 Hsame1]; [done|done|done|done|by rewrite Hn3; simpl; rewrite insert_insert_eq|].
    apply NoDup_cons in Hnd as [_ Hnd].
    destruct (IH Hnd (with_nodes (<[tag := as_pic (diagramFileName h0 e) e]> (nodes w3)) w3)
                Hst1 Hsame1 Hrest) as (Hpd & gen2 & Hsp & Hnd2 & Hgen2).
    simpl in Hpd, Hsp, Hgen2. rewrite Hp3 in Hpd, Hgen2. rewrite Hs3 in Hsp.
    rewrite He0. simpl. fold p. split.
    + rewrite Hpd. apply leibniz_equiv. intros x.
      rewrite !elem_of_union, !elem_of_singleton. tauto.
    + destruct (decide (p ∈ processedDiagrams w)) as [Hin|Hin].
      * exists gen2. rewrite app_nil_r in Hsp. split; [done|]. split; [done|].
        intros q. rewrite Hgen2, elem_of_cons, elem_of_union, elem_of_singleton.
        split; [tauto|]. intros [[->|Hq] Hnq]; [done|].
        split; [done|]. by intros [->|?].
      * exists ((p, pumlContent h0 (fs w) config e) :: gen2). split.
        { rewrite Hsp. by rewrite <- app_assoc. }
        split.
        { simpl. apply NoDup_cons. split; [|done].
          rewrite Hgen2, elem_of_union, elem_of_singleton. tauto. }
        intros q. simpl. rewrite !elem_of_cons, Hgen2, elem_of_union, elem_of_singleton.
        destruct (decide (q = p)) as [->|Hne]; tauto.
Qed.

Lemma each_first_tags h0 config (sel : list ref) (w w' : World) :
  NoDup sel →
  same_text h0 (nodes w) →
  (∀ r, r ∈ sel → nodes w !! r = h0 !! r) →
  each (each_callback config) sel w = (Ok tt, w') →
  ∃ gen, spawned w' = (spawned w ++ map spawn_of gen)%list
         ∧ Forall2 (launched_for h0) (first_tags h0 config sel (processedDiagrams w)) gen.
Proof.
  intros Hnd. revert w. induction sel as [|tag sel IH]; intros w Hst Hsame.
  - simpl. munfold. intros [= <-]. exists []. simpl. rewrite app_nil_r.
    split; [done|constructor].
  - simpl. munfold.
    destruct (each_callback config tag w) as [[[]|err] w1] eqn:Hcb; [|done].
    intros Hrest.
    destruct (nodes w !! tag) as [e|] eqn:He.
    2:{ by apply (each_callback_dangling _ _ _ _ _ He) in Hcb. }
    assert (He0 : h0 !! tag = Some e) by (rewrite <- Hsame; [done|left]).
    rewrite (each_callback_run h0 _ _ _ _ Hst He) in Hcb. simpl in Hcb.
    rewrite pumlContent_fileName in Hcb.
    destruct (generateDiagram _ _ config _) as [[src|err] w3] eqn:Hg; [|done].
    injection Hcb as <-.
    apply generateDiagram_ok in Hg as (-> & Hn3 & _ & Hp3 & Hs3). simpl in *.
    set (p := outputFilePath config (diagramFileName h0 e)) in *.
    destruct (callback_keeps h0 tag sel w e (diagramFileName h0 e)
                (<[tag := as_pic (diagramFileName h0 e) e]> (nodes w3)))
      as [Hst1 Hsame1]; [done|done|done|done|by rewrite Hn3; simpl; rewrite insert_insert_eq|].
    apply NoDup_cons in Hnd as [_ Hnd].
    destruct (IH Hnd (with_nodes (<[tag := as_pic (diagramFileName h0 e) e]> (nodes w3)) w3)
                Hst1 Hsame1 Hrest) as (gen2 & Hsp & Hgen2).
    simpl in Hsp, Hgen2. rewrite Hp3 in Hgen2. rewrite Hs3 in Hsp.
    rewrite He0. fold p.
    destruct (decide (p ∈ processedDiagrams w)) as [Hin|Hin].
    + exists gen2. rewrite app_nil_r in Hsp. split; [done|].
      replace (processedDiagrams w) with ({[p]} ∪ processedDiagrams w); [done|].
      apply leibniz_equiv. intros x. rewrite elem_of_union, elem_of_singleton.
      split; [by intros [->|?]|by right].
    + exists ((p, pumlContent h0 (fs w) config e) :: gen2). split.
      { rewrite Hsp. by rewrite <- app_assoc. }
      constructor; [|done]. split; [done|]. exists e. split; [done|].
      intros Hsrc. unfold pumlContent. by rewrite Hsrc.
Qed.

Lemma each_throw h0 config (sel : list ref) (w w' : World) err :
  NoDup sel →
  same_text h0 (nodes w) →
  (∀ r, r ∈ sel → nodes w !! r = h0 !! r) →
  (∀ r, r ∈ sel → is_Some (h0 !! r)) →
  each (each_callback config) sel w = (Throw err, w') →
  ∃ tag e,
    tag ∈ sel ∧ h0 !! tag = Some e
    ∧ thrown_for h0 config e err w'.
Proof.
  intros Hnd. revert w. induction sel as [|tag sel IH]; intros w Hst Hsame Hex.
  - simpl. munfold. done.
  - destruct (Hex tag) as [e He0]; [left|].
    assert (He : nodes w !! tag = Some e) by (rewrite Hsame; [done|left]).
    simpl. munfold. rewrite (each_callback_run h0 _ _ _ _ Hst He). simpl.
    rewrite pumlContent_fileName.
    destruct (generateDiagram _ _ config _) as [[src|err'] w3] eqn:Hg.
    + apply generateDiagram_ok in Hg as (-> & Hn3 & _). simpl in Hn3.
      set (w1 := with_nodes _ w3).
      destruct (callback_keeps h0 tag sel w e (diagramFileName h0 e) (nodes w1))
        as [Hst1 Hsame1];
        [done|done|done|done|by unfold w1; simpl; rewrite Hn3, insert_insert_eq|].
      apply NoDup_cons in Hnd as [_ Hnd]. intros Hrest.
      destruct (IH Hnd w1 Hst1 Hsame1) as (t & e' & Ht & Hrest');
        [intros r Hr; apply Hex; by right|done|].
      exists t, e'. split; [by right|done].
    + intros [= <- <-].
      apply generateDiagram_throw in Hg as [Hp Hwhy].
      exists tag, e. split; [left|]. split; [done|]. by split.
Qed.


(** ** Properties beyond the render pass of one page *)

(** X1: generateDiagram records the output file path before it creates the
    output directory.  When the directory is missing and mkdirSync throws, the
    exception leaves generateDiagram, no process is launched, and the path
    stays in the processed-diagrams set: every later call for that file, until
    the set is cleared, returns the file name without launching anything. *)
Theorem generateDiagram_mkdir_failure (fileName content : string) (config : Config)
    (w : World) (err : string) :
  outputFilePath config fileName ∉ processedDiagrams w →
  existsSync (fs w) (outputDir config fileName) = false →
  mkdirSync (fs w) (outputDir config fileName) = Throw err →
  let w1 := with_processed ({[outputFilePath config fileName]} ∪ processedDiagrams w) w in
  generateDiagram fileName content config w = (Throw err, w1)
  ∧ spawned w1 = spawned w
  ∧ ∀ content', generateDiagram fileName content' config w1 = (Ok fileName, w1).
Proof.
  intros Hin Hex Hmk w1. split; [|split; [done|]].
  - rewrite generateDiagram_miss by done. simpl. by rewrite Hex, Hmk.
  - intros content'. apply generateDiagram_hit. unfold w1. simpl.
    apply elem_of_union_l. by apply elem_of_singleton.
Qed.

(** X2: the processed-diagrams set is keyed on the output file path, not on
    the file name: after a call for one file name, a call for any file name
    with the same output file path, whatever its content, launches nothing and
    returns its own file name. *)
Theorem generateDiagram_keyed_on_path (fileName1 fileName2 content1 content2 : string)
    (config : Config) (w : World) :
  outputFilePath config fileName1 = outputFilePath config fileName2 →
  let w1 := (generateDiagram fileName1 content1 config w).2 in
  generateDiagram fileName2 content2 config w1 = (Ok fileName2, w1).
Proof.
  intros Hp w1. apply generateDiagram_hit. rewrite <- Hp.
  apply generateDiagram_records.
Qed.

(** X3: for an element with a src attribute getContent never throws, and
    what it returns is the content of the file when the file can be read and
    the empty string when it cannot: never the text inside the tag.  The
    result is the same whatever children the element has and whatever else
    the document holds. *)
Theorem getContent_src_ignores_inline (element : ref) (cwf : option string)
    (config : Config) (w : World) (e : Element) (src : string) :
  nodes w !! element = Some e →
  attribs e !! "src" = Some src →
  let c := match readFileSync (fs w) (rawDiagramPath cwf config src) with
           | Ok s => s
           | Throw _ => ""
           end in
  (getContent element cwf config w).1 = Ok c
  ∧ (∀ s, readFileSync (fs w) (rawDiagramPath cwf config src) = Ok s → c = s)
  ∧ (∀ err, readFileSync (fs w) (rawDiagramPath cwf config src) = Throw err → c = "")
  ∧ ∀ (h' : gmap ref Element) (kids : list ref),
      (getContent element cwf config
         (with_nodes (<[element := set_children kids e]> h') w)).1 = Ok c.
Proof.
  intros He Hsrc c.
  assert (Hany : ∀ w' e', nodes w' !! element = Some e' → attribs e' = attribs e →
            fs w' = fs w →
            (getContent element cwf config w').1 = Ok c).
  { intros w' e' He' Ha Hf. rewrite (getContent_eq _ _ _ _ _ He'), Ha, Hsrc. simpl.
    rewrite Hf. unfold c. by destruct (readFileSync _ _). }
  split; [by apply (Hany w e)|]. split; [|split].
  - intros s Hs. unfold c. by rewrite Hs.
  - intros err Herr. unfold c. by rewrite Herr.
  - intros h' kids. apply (Hany _ (set_children kids e)); [|done|done].
    simpl. apply lookup_insert_eq.
Qed.

(** X4: in a pass that returns, the processes launched are one for each
    distinct output file path of the selected tags and no other: the launched
    paths are pairwise distinct, they are exactly the output file paths of the
    tags, and they are what the processed-diagrams set holds afterwards. *)
Theorem preRender_launches_each_once (content : string) (config : Config)
    (w w' : World) (out : string) :
  let h0 := (cheerio_load content).1 in
  let roots := (cheerio_load content).2 in
  let sel := cheerio_select h0 roots "puml" in
  NoDup sel →
  preRender content config w = (Ok out, w') →
  processedDiagrams w' = list_to_set (tag_paths h0 config sel)
  ∧ ∃ gen, spawned w' = (spawned w ++ map spawn_of gen)%list
           ∧ NoDup gen.*1
           ∧ (∀ p, p ∈ gen.*1 ↔ p ∈ tag_paths h0 config sel)
           ∧ (∀ tag, tag ∈ sel →
                ∃ e0, h0 !! tag = Some e0
                      ∧ outputFilePath config (diagramFileName h0 e0) ∈ gen.*1).
Proof.
  unfold preRender. munfold. simpl.
  destruct (cheerio_load content) as [h0 roots]. simpl.
  intros Hnd Hrun.
  set (w0 := with_nodes h0 (with_processed ∅ w)) in *.
  destruct (each (each_callback config) _ w0) as [[[]|err] w1] eqn:Heach; [|done].
  injection Hrun as <- <-.
  destruct (each_exact h0 config _ w0 w1 Hnd) as (Hpd & gen & Hsp & Hnd' & Hgen);
    [done|done|done|].
  destruct (each_nodes h0 config _ w0 w1 Hnd) as [Hin _]; [done|done|done|].
  simpl in *.
  assert (Hgen' : ∀ p, p ∈ gen.*1 ↔ p ∈ tag_paths h0 config (cheerio_select h0 roots "puml")).
  { intros p. rewrite Hgen, elem_of_empty. tauto. }
  split.
  - rewrite Hpd. apply leibniz_equiv. intros x.
    rewrite elem_of_union, elem_of_empty. tauto.
  - exists gen. split; [done|]. split; [done|]. split; [done|].
    intros tag Htag. destruct (Hin tag Htag) as (e0 & He0 & _).
    exists e0. split; [done|]. apply Hgen'. unfold tag_paths.
    apply list_elem_of_omap. exists tag. split; [done|]. by rewrite He0.
Qed.

Lemma launched_for_paths h0 (tps : list (ref * string)) (gen : list (string * string)) :
  Forall2 (launched_for h0) tps gen → gen.*1 = tps.*2.
Proof.
  induction 1 as [|tp g tps gen [Hp _] _ IH]; [done|].
  rewrite !fmap_cons. by rewrite Hp, IH.
Qed.

(** A pass that returns. *)
Lemma preRender_ok_run (content : string) (config : Config) (w w' : World)
    (out : string) :
  let h0 := (cheerio_load content).1 in
  let roots := (cheerio_load content).2 in
  let sel := cheerio_select h0 roots "puml" in
  NoDup sel →
  preRender content config w = (Ok out, w') →
  out = cheerio_html (nodes w') roots
  ∧ (∀ r, nodes w' !! r
          = if decide (r ∈ sel)
            then (λ e0, as_pic (diagramFileName h0 e0) e0) <$> h0 !! r
            else h0 !! r)
  ∧ processedDiagrams w' = list_to_set (tag_paths h0 config sel)
  ∧ ∃ gen, spawned w' = (spawned w ++ map spawn_of gen)%list
           ∧ Forall2 (launched_for h0) (first_tags h0 config sel ∅) gen.
Proof.
  unfold preRender. munfold. simpl.
  destruct (cheerio_load content) as [h0 roots]. simpl.
  intros Hnd Hrun.
  set (w0 := with_nodes h0 (with_processed ∅ w)) in *.
  destruct (each (each_callback config) _ w0) as [[[]|err] w1] eqn:Heach; [|done].
  injection Hrun as <- <-.
  destruct (each_exact h0 config _ w0 w1 Hnd) as (Hpd & _); [done|done|done|].
  destruct (each_nodes h0 config _ w0 w1 Hnd) as [Hin Hout]; [done|done|done|].
  destruct (each_first_tags h0 config _ w0 w1 Hnd) as (gen & Hsp & Hgen);
    [done|done|done|].
  split; [done|]. split; [|split].
  - intros r. destruct (decide (r ∈ _)) as [Hr|Hr].
    + destruct (Hin r Hr) as (e0 & -> & ->). done.
    + by rewrite Hout.
  - rewrite Hpd. simpl. apply leibniz_equiv. intros x.
    rewrite elem_of_union, elem_of_empty. tauto.
  - by exists gen.
Qed.

(** X5: in a pass that returns, the processes are launched in document
    order, one for the first tag of each output file path: each launched
    process has the path of its tag and, when the tag has no src attribute,
    the text inside that tag as its input.  A later tag with the same path,
    for instance the same name attribute, is never rendered, whatever its
    content. *)
Theorem preRender_first_tag_wins (content : string) (config : Config)
    (w w' : World) (out : string) :
  let h0 := (cheerio_load content).1 in
  let roots := (cheerio_load content).2 in
  let sel := cheerio_select h0 roots "puml" in
  NoDup sel →
  preRender content config w = (Ok out, w') →
  ∃ gen, spawned w' = (spawned w ++ map spawn_of gen)%list
         ∧ Forall2 (launched_for h0) (first_tags h0 config sel ∅) gen.
Proof.
  intros h0 roots sel Hnd Hrun.
  by destruct (preRender_ok_run content config w w' out Hnd Hrun) as (_ & _ & _ & Hgen).
Qed.

(** X6: the processed-diagrams set does not outlive a pass.  When a pass over
    some content returns and a second pass over the same content returns too,
    the second returns the same string and launches a process for every
    output file path of the first again, in the same order. *)
Theorem preRender_twice (content : string) (config : Config) (w w1 w2 : World)
    (out1 out2 : string) :
  let h0 := (cheerio_load content).1 in
  let roots := (cheerio_load content).2 in
  let sel := cheerio_select h0 roots "puml" in
  NoDup sel →
  preRender content config w = (Ok out1, w1) →
  preRender content config w1 = (Ok out2, w2) →
  out2 = out1
  ∧ processedDiagrams w2 = processedDiagrams w1
  ∧ ∃ gen1 gen2,
      spawned w1 = (spawned w ++ map spawn_of gen1)%list
      ∧ spawned w2 = (spawned w1 ++ map spawn_of gen2)%list
      ∧ gen2.*1 = gen1.*1
      ∧ gen1.*1 = (first_tags h0 config sel ∅).*2.
Proof.
  intros h0 roots sel Hnd Hrun1 Hrun2.
  destruct (preRender_ok_run content config w w1 out1 Hnd Hrun1)
    as (-> & Hn1 & Hpd1 & gen1 & Hsp1 & Hgen1).
  destruct (preRender_ok_run content config w1 w2 out2 Hnd Hrun2)
    as (-> & Hn2 & Hpd2 & gen2 & Hsp2 & Hgen2).
  apply launched_for_paths in Hgen1, Hgen2.
  split; [|split; [by rewrite Hpd1, Hpd2|]].
  - f_equal. apply map_eq. intros r. by rewrite Hn1, Hn2.
  - exists gen1, gen2. split; [done|]. split; [done|]. split; [|done].
    by rewrite Hgen1, Hgen2.
Qed.

(** X7: a pass over existing elements throws only what the launch of a
    diagram throws.  When preRender throws, then for some selected tag either
    its output directory was missing and mkdirSync threw that exception, or
    exec threw it, or the child process could not be spawned and the
    exception is the TypeError of writing to its missing stdin; the tag's
    output file path is in the processed-diagrams set the pass leaves, and the
    file system it leaves is the one the failing call saw. *)
Theorem preRender_throw_sources (content : string) (config : Config)
    (w w' : World) (err : string) :
  let h0 := (cheerio_load content).1 in
  let roots := (cheerio_load content).2 in
  let sel := cheerio_select h0 roots "puml" in
  NoDup sel →
  (∀ tag, tag ∈ sel → is_Some (h0 !! tag)) →
  preRender content config w = (Throw err, w') →
  ∃ tag e,
    tag ∈ sel ∧ h0 !! tag = Some e
    ∧ outputFilePath config (diagramFileName h0 e) ∈ processedDiagrams w'
    ∧ (existsSync (fs w') (outputDir config (diagramFileName h0 e)) = false
       ∧ mkdirSync (fs w') (outputDir config (diagramFileName h0 e)) = Throw err
       ∨ child_process_exec (fs w')
           (plantuml_cmd (outputFilePath config (diagramFileName h0 e))) = Throw err
       ∨ child_process_exec (fs w')
           (plantuml_cmd (outputFilePath config (diagramFileName h0 e))) = Ok None
         ∧ err = "TypeError").
Proof.
  unfold preRender. munfold. simpl.
  destruct (cheerio_load content) as [h0 roots]. simpl.
  intros Hnd Hex Hrun.
  set (w0 := with_nodes h0 (with_processed ∅ w)) in *.
  destruct (each (each_callback config) _ w0) as [[[]|err'] w1] eqn:Heach; [done|].
  injection Hrun as <- <-.
  destruct (each_throw h0 config _ w0 w1 err' Hnd) as (tag & e & Ht & He & Hp & Hwhy);
    [done|done|done|done|].
  by exists tag, e.
Qed.


End PluginProperties.

(** * The plugin on the demo page *)

Section DemoRuns.
Import Demo.

Lemma content_hash_dedup_witness :
  getFileName ∅ "A->B" = MD5 "A->B" ++ ".png"
  ∧ outputFilePath demo_config (getFileName ∅ "A->B")
    = outputFilePath demo_config (getFileName {[ "cwf" := "/site/a.md" ]} "A->B")
  ∧ (∀ w, let w1 := (generateDiagram (getFileName ∅ "A->B") "A->B" demo_config w).2 in
          generateDiagram (getFileName {[ "cwf" := "/site/a.md" ]} "A->B") "A->B"
                          demo_config w1
          = (Ok (getFileName {[ "cwf" := "/site/a.md" ]} "A->B"), w1))
  ∧ (∀ page w, ∃ gen,
       spawned (preRender page demo_config w).2 = (spawned w ++ map spawn_of gen)%list
       ∧ NoDup gen.*1).
Proof.
  apply (content_hash_dedup ∅ {[ "cwf" := "/site/a.md" ]} "A->B" demo_config);
    reflexivity.
Defined.

Lemma generateDiagram_idempotent_witness :
  generateDiagram "stale.png" "X" demo_config demo_world = (Ok "stale.png", demo_world).
Proof.
  apply (proj1 (generateDiagram_idempotent "stale.png" "X" demo_config demo_world)).
  apply (bool_decide_unpack _). vm_compute. exact I.
Defined.

Lemma preRender_converts_puml_witness :
  nodes (preRender demo_page demo_config demo_world).2 !! 1
  = Some (mkElement "tag" "pic" {[ "src" := "B>-A.png" ]} (Some []) "")
  ∧ nodes (preRender demo_page demo_config demo_world).2 !! 2
    = Some (text_node "A->B").
Proof.
  assert (Hnd : NoDup (cheerio_select (cheerio_load demo_page).1
                         (cheerio_load demo_page).2 "puml")).
  { apply (bool_decide_unpack _). vm_compute. exact I. }
  assert (Hrun : preRender demo_page demo_config demo_world
                 = (Ok "<div><pic src=B>-A.png></pic><pic src=B>-A.png></pic><pic src=seq.png name=seq></pic><pic src=d/c.png></pic></div>",
                    (preRender demo_page demo_config demo_world).2)).
  { vm_compute. reflexivity. }
  pose proof (preRender_converts_puml demo_page demo_config demo_world _ _ Hnd Hrun)
    as (Hsel & Hother & _).
  split.
  - destruct (Hsel 1) as (e0 & He0 & He1).
    + apply (bool_decide_unpack _). vm_compute. exact I.
    + refine (eq_trans He1 _). vm_compute in He0. injection He0 as <-.
      vm_compute. reflexivity.
  - refine (eq_trans (Hother 2 _) _); [|vm_compute; reflexivity].
    apply (bool_decide_unpack _). vm_compute. exact I.
Defined.

Lemma preRender_deterministic_witness :
  (preRender demo_page demo_config demo_world).1
  = (preRender demo_page demo_config demo_later).1.
Proof.
  apply (preRender_deterministic demo_page demo_config demo_world demo_later).
  reflexivity.
Defined.

Lemma getContent_unreadable_src_witness :
  getContent 7 None demo_config demo_loaded
  = (Ok "", with_logged [LogDebug "ENOENT"; LogError "Error reading /site/d/c.puml"]
                        demo_loaded).
Proof.
  apply (proj1 (getContent_unreadable_src 7 demo_config demo_loaded
                  (tag_node "puml" {[ "src" := "d/c.puml" ]} []) "d/c.puml"
                  eq_refl eq_refl) None "ENOENT").
  reflexivity.
Defined.

Lemma fetchContentInTag_last_text_witness :
  fetchContentInTag demo_heap (tag_node "puml" ∅ [2; 0; 6; 5]) = "X".
Proof.
  apply (proj1 (proj2 (fetchContentInTag_last_text demo_heap
                         (tag_node "puml" ∅ [2; 0; 6; 5])))
           [text_node "A->B"; tag_node "div" ∅ [1; 3; 5; 7]]
           [tag_node "puml" {[ "name" := "seq" ]} [6]]
           (text_node "X")).
  - reflexivity.
  - reflexivity.
  - repeat constructor. discriminate.
Defined.

Lemma getFileName_precedence_witness :
  getFileName {[ "name" := "seq"; "src" := "d/c.puml" ]} "X" = "seq.png".
Proof.
  apply (proj1 (getFileName_precedence {[ "name" := "seq"; "src" := "d/c.puml" ]} "X")
           "seq").
  reflexivity.
Defined.

Lemma generateDiagram_mkdir_failure_witness :
  generateDiagram (ext := readonly) "d/c.png" "C->D" demo_config readonly_world
  = (Throw "EACCES", with_processed {[ "/out/d/c.png" ]} readonly_world).
Proof.
  refine (eq_trans (proj1 (generateDiagram_mkdir_failure (ext := readonly)
                             "d/c.png" "C->D" demo_config readonly_world "EACCES"
                             _ _ _)) _).
  - apply (bool_decide_unpack _). vm_compute. exact I.
  - reflexivity.
  - reflexivity.
  - vm_compute. reflexivity.
Defined.

Lemma generateDiagram_keyed_on_path_witness :
  generateDiagram "./a.png" "second" demo_config
    (generateDiagram "a.png" "first" demo_config demo_world).2
  = (Ok "./a.png", (generateDiagram "a.png" "first" demo_config demo_world).2).
Proof.
  apply (generateDiagram_keyed_on_path "a.png" "./a.png" "first" "second"
           demo_config demo_world).
  reflexivity.
Defined.

Lemma getContent_src_ignores_inline_witness :
  (getContent 7 None demo_config demo_ready_loaded).1 = Ok "C->D".
Proof.
  refine (eq_trans (proj1 (getContent_src_ignores_inline 7 None demo_config
                             demo_ready_loaded
                             (tag_node "puml" {[ "src" := "d/c.puml" ]} []) "d/c.puml"
                             _ _)) _); reflexivity.
Defined.

Lemma demo_selection_NoDup :
  NoDup (cheerio_select (cheerio_load demo_page).1 (cheerio_load demo_page).2 "puml").
Proof. apply (bool_decide_unpack _). vm_compute. exact I. Defined.

Lemma demo_selection_exists :
  ∀ tag, tag ∈ cheerio_select (cheerio_load demo_page).1 (cheerio_load demo_page).2 "puml" →
         is_Some ((cheerio_load demo_page).1 !! tag).
Proof. apply Forall_forall. apply (bool_decide_unpack _). vm_compute. exact I. Defined.

Lemma preRender_launches_each_once_witness :
  processedDiagrams (preRender demo_page demo_config demo_world).2
  = {[ "/out/B>-A.png"; "/out/seq.png"; "/out/d/c.png" ]}.
Proof.
  refine (eq_trans (proj1 (preRender_launches_each_once demo_page demo_config demo_world
                             (preRender demo_page demo_config demo_world).2
                             "<div><pic src=B>-A.png></pic><pic src=B>-A.png></pic><pic src=seq.png name=seq></pic><pic src=d/c.png></pic></div>"
                             demo_selection_NoDup _)) _).
  - vm_compute. reflexivity.
  - vm_compute. reflexivity.
Defined.

Lemma demo_pass :
  preRender demo_page demo_config demo_world
  = (Ok "<div><pic src=B>-A.png></pic><pic src=B>-A.png></pic><pic src=seq.png name=seq></pic><pic src=d/c.png></pic></div>",
     (preRender demo_page demo_config demo_world).2).
Proof. vm_compute. reflexivity. Defined.

Lemma demo_second_pass :
  preRender demo_page demo_config (preRender demo_page demo_config demo_world).2
  = (Ok "<div><pic src=B>-A.png></pic><pic src=B>-A.png></pic><pic src=seq.png name=seq></pic><pic src=d/c.png></pic></div>",
     (preRender demo_page demo_config
        (preRender demo_page demo_config demo_world).2).2).
Proof. vm_compute. reflexivity. Defined.

Lemma preRender_first_tag_wins_witness :
  ∃ gen,
    spawned (preRender demo_page demo_config demo_world).2
    = (spawned demo_world ++ map spawn_of gen)%list
    ∧ Forall2 (launched_for (cheerio_load demo_page).1)
        (first_tags (cheerio_load demo_page).1 demo_config
           (cheerio_select (cheerio_load demo_page).1 (cheerio_load demo_page).2 "puml")
           ∅)
        gen.
Proof.
  exact (preRender_first_tag_wins demo_page demo_config demo_world _ _
           demo_selection_NoDup demo_pass).
Defined.

Lemma preRender_twice_witness :
  processedDiagrams
    (preRender demo_page demo_config (preRender demo_page demo_config demo_world).2).2
  = processedDiagrams (preRender demo_page demo_config demo_world).2.
Proof.
  exact (proj1 (proj2 (preRender_twice demo_page demo_config demo_world _ _ _ _
                         demo_selection_NoDup demo_pass demo_second_pass))).
Defined.

Lemma preRender_throw_sources_witness :
  ∃ tag e,
    tag ∈ cheerio_select (cheerio_load demo_page).1 (cheerio_load demo_page).2 "puml"
    ∧ (cheerio_load demo_page).1 !! tag = Some e
    ∧ thrown_for (ext := nospawn) (cheerio_load demo_page).1 demo_config e "TypeError"
        (preRender (ext := nospawn) demo_page demo_config nospawn_world).2.
Proof.
  apply (preRender_throw_sources (ext := nospawn) demo_page demo_config
           nospawn_world
           (preRender (ext := nospawn) demo_page demo_config nospawn_world).2
           "TypeError").
  - apply (bool_decide_unpack _). vm_compute. exact I.
  - apply Forall_forall. apply (bool_decide_unpack _). vm_compute. exact I.
  - vm_compute. reflexivity.
Defined.


End DemoRuns.

(** * Properties of the list core *)

Section ListCoreProperties.
Import ListCore.
Local Open Scope list_scope.


(** ** Ordered lists are renumbered *)






(** ** Malformed boxes degrade to plain items *)

Lemma strip_prefix_None p s :
  String.prefix p s = false → strip_prefix p s = None.
Proof.
  revert s. induction p as [|a p IH]; intros s.
  - by destruct s.
  - destruct s as [|b s]; [done|]. simpl.
    destruct (ascii_dec a b) as [->|Hne].
    + rewrite bool_decide_true by done. apply IH.
    + by rewrite bool_decide_false.
Qed.

Lemma leading_opens_box rest :
  opens_box rest = true → leading rest = (0, rest).
Proof.
  destruct rest as [|c rest]; [done|]. unfold opens_box. cbn [String.prefix].
  destruct (ascii_dec "[" c) as [<-|?]; [done|].
  destruct (ascii_dec "(" c) as [<-|?]; [done|]. by destruct rest.
Qed.

Lemma marker_malformed rest :
  opens_box rest = true → well_formed_box rest = false →
  marker ("- " +:+ rest) = Some (Unordered, rest).
Proof.
  intros Hopen Hwf. unfold well_formed_box in Hwf. simpl in Hwf.
  repeat (apply orb_false_elim in Hwf as [?%strip_prefix_None Hwf]).
  assert (Hdash : ∀ p, strip_prefix p rest = None →
            strip_prefix (String "-" (String " " p)) (String "-" (String " " rest))
            = None).
  { intros p Hp. cbn [strip_prefix]. by rewrite !bool_decide_true. }
  unfold marker, boxes, match_box.
  change ("- " +:+ rest) with (String "-" (String " " rest)).
  rewrite !Hdash by done.
  unfold match_bullet, ltrim. cbn [leading at_break is_ws].
  rewrite !bool_decide_true by done. cbn [orb andb].
  by rewrite (leading_opens_box rest Hopen).
Qed.

Lemma leading_spaces n s :
  leading s = (0, s) → leading (spaces n +:+ s) = (n, s).
Proof.
  intros Hs. induction n as [|n IH]; [done|].
  change (spaces (S n) +:+ s) with (String " " (spaces n +:+ s)).
  simpl. by rewrite IH.
Qed.

Lemma classify_malformed st n rest :
  opens_box rest = true → well_formed_box rest = false →
  ∃ d st', classify st (spaces n +:+ "- " +:+ rest)
           = (Token (mkToken d (Item Unordered) rest), st').
Proof.
  intros Hopen Hwf. unfold classify.
  rewrite (leading_spaces n ("- " +:+ rest)) by done.
  rewrite bool_decide_false by done.
  rewrite marker_malformed by done.
  destruct (depth_of st n) as [d u]. eauto.
Qed.

(** ** One node per item *)

Lemma node_count_add_child p c :
  node_count (add_child p c) = node_count p + node_count c.
Proof.
  destruct p as [k t cs]. simpl. rewrite sum_list_with_app. simpl. lia.
Qed.

Lemma node_count_attach carry n :
  node_count (attach carry n) = node_count n + forest_count (option_list carry).
Proof.
  destruct carry as [c|]; simpl; [|lia].
  rewrite node_count_add_child. unfold forest_count. simpl. lia.
Qed.

Lemma pop_to_count d carry st rs :
  stack_count (pop_to d carry st rs).1 + forest_count (pop_to d carry st rs).2
  = stack_count st + forest_count rs + forest_count (option_list carry).
Proof.
  revert carry. induction st as [|[dn n] st IH]; intros carry; simpl.
  - unfold forest_count. rewrite sum_list_with_app. unfold stack_count. simpl. lia.
  - case_bool_decide.
    + rewrite IH. unfold forest_count at 2. simpl.
      rewrite node_count_attach. unfold stack_count. simpl. lia.
    + simpl. unfold stack_count. simpl. rewrite node_count_attach. lia.
Qed.

Lemma pop_to_zero carry st rs : (pop_to 0 carry st rs).1 = [].
Proof.
  revert carry. induction st as [|[dn n] st IH]; intros carry; simpl; [done|].
  apply IH.
Qed.

Lemma total_flush b : total (flush b) = total b.
Proof.
  unfold flush, close_all, total.
  pose proof (pop_to_count 0 None (stack b) (roots b)) as Hc.
  rewrite pop_to_zero in Hc.
  destruct (pop_to 0 None (stack b) (roots b)).2 as [|n f] eqn:Hf; simpl in *.
  - unfold forest_count, stack_count in *. simpl in *. lia.
  - rewrite sum_list_with_app. unfold forest_count, stack_count in *. simpl in *. lia.
Qed.

Lemma total_step b l :
  total (step b l) = total b + (if is_item l then 1 else 0).
Proof.
  destruct l as [[d k t]|raw]; simpl; [|rewrite total_flush; lia].
  destruct k as [k| |]; simpl.
  - pose proof (pop_to_count (effective_depth (stack b) d) None (stack b) (roots b)) as Hc.
    destruct (pop_to _ None (stack b) (roots b)) as [st' rs].
    unfold total, stack_count, forest_count in *. simpl in *. lia.
  - destruct (stack b) as [|[dn n] st'] eqn:Hst; unfold total; simpl.
    + rewrite Hst. simpl. lia.
    + rewrite Hst. unfold stack_count. simpl.
      destruct n as [kn c cs]. simpl. lia.
  - case_bool_decide; [|rewrite total_flush; lia]. unfold total. simpl. lia.
Qed.

Lemma total_fold ls b :
  total (fold_left step ls b) = total b + item_count ls.
Proof.
  revert b. induction ls as [|l ls IH]; intros b; simpl.
  - unfold item_count. simpl. lia.
  - rewrite IH, total_step. unfold item_count. rewrite filter_cons.
    destruct (is_item l); simpl; lia.
Qed.

Lemma build_count ls :
  sum_list_with forest_count (build ls) = item_count ls.
Proof.
  unfold build.
  pose proof (total_flush (fold_left step ls builder_init)) as Hf.
  rewrite total_fold in Hf.
  assert (Hs : stack (flush (fold_left step ls builder_init)) = []
               ∧ roots (flush (fold_left step ls builder_init)) = []).
  { unfold flush. by destruct (close_all _). }
  destruct Hs as [Hs Hr]. unfold total in Hf at 1. rewrite Hs, Hr in Hf.
  unfold total in Hf. simpl in Hf. unfold forest_count, stack_count in Hf.
  simpl in Hf. unfold forest_count. lia.
Qed.



(** ** Ordinals never reach the markup *)









Lemma add_line_forget n t :
  forget_node (add_line n t) = add_line (forget_node n) t.
Proof. by destruct n. Qed.









(** ** Every ordered list is numbered by position *)










(** C7: a line whose box is malformed is never a task or a radio item: the
    line "- [y]" is an unordered item whose text is "[y]", and so is, at any
    indentation and in any context, every dash line whose text opens a box
    that is none of the five well-formed ones; tokenizing, building and
    rendering are total, and the forests built from any lines hold one node
    for each item token. *)
Theorem malformed_box_degrades :
  tokenize ["- [y]"] = [Token (mkToken 0 (Item Unordered) "[y]")]
  ∧ (∀ st n rest,
       opens_box rest = true → well_formed_box rest = false →
       ∃ d st', classify st (spaces n +:+ "- " +:+ rest)
                = (Token (mkToken d (Item Unordered) rest), st'))
  ∧ (∀ lines, ∃ forests out,
       build (tokenize lines) = forests
       ∧ render_lines lines = out
       ∧ sum_list_with forest_count forests = item_count (tokenize lines)).
Proof.
  split; [by vm_compute|]. split.
  - intros st n rest. apply classify_malformed.
  - intros lines. eexists _, _. split; [done|]. split; [done|]. apply build_count.
Qed.


Lemma malformed_box_degrades_witness :
  ∃ d st', classify tok_init "  - (X) loud"
           = (Token (mkToken d (Item Unordered) "(X) loud"), st').
Proof.
  apply (proj1 (proj2 malformed_box_degrades) tok_init 2 "(X) loud"); reflexivity.
Defined.

End ListCoreProperties.
